(** * MealPlannerApp: the allocation engine of [app.py]

    A shallow embedding of the planning code of [app.py] and the properties
    of its allocator, meal planner, day and month loops, reference loader
    and inventory builders.

    Numbers.  Serving counts are Python numbers (the requirement tables hold
    integers, the inventories hold products of spreadsheet numbers).  They
    are embedded as exact rationals [Q]: comparisons are the boolean
    comparisons of [Q], sums and differences are exact.  Equalities between
    computed amounts are therefore stated with [==] (equality of rationals),
    equalities between item lists with [=].

    Python computes the inventories in double precision.  The embedding in
    [Q] follows the same control flow, and its amounts are the amounts of the
    code as long as no operation rounds, which is the case for whole
    servings below 2^53.  Properties that need exact sums are stated for such
    whole amounts ([whole], [whole_stock]); the module [Double] is the
    allocator in doubles, and shows where rounding breaks them. *)

From Stdlib Require Import ZArith QArith Qabs Lqa Lia List Bool Ascii String.
From Stdlib Require Import PrimFloat SpecFloat FloatOps.
From stdpp Require Import base option list strings gmap.

#[local] Set Warnings "-inexact-float".

Local Open Scope Q_scope.

(** ** Numbers *)

(** Python's [a > 0], [a >= b] on numbers. *)
Definition Qltb (x y : Q) : bool := negb (Qle_bool y x).
Definition Qleb (x y : Q) : bool := Qle_bool x y.

Fixpoint Qsum (l : list Q) : Q :=
  match l with
  | [] => 0
  | x :: r => x + Qsum r
  end.

(** ** Data model *)

(** The standard category keys, the values of [CATEGORY_MAP]. *)
Inductive Category := fruit_veg | dairy | protein | cereal | oil.

#[export] Instance Category_eq_dec : EqDecision Category.
Proof. solve_decision. Defined.

(** An entry of [box_list] or [main_list]:
    [{"item_name": .., "category": .., "servings_available": ..}]. *)
Record InventoryItem := mkItem {
  item_name : string;
  category : Category;
  servings_available : Q
}.

(** The ["from"] field of a usage record. *)
Inductive Source := box | main.

#[export] Instance Source_eq_dec : EqDecision Source.
Proof. solve_decision. Defined.

(** An entry of [used_details]. *)
Record UsageRecord := mkUsage {
  used_item_name : string;
  used_category : Category;
  servings_used : Q;
  from : Source
}.

(** [item["servings_available"] = v], the other keys untouched. *)
Definition set_servings (item : InventoryItem) (v : Q) : InventoryItem :=
  mkItem (item_name item) (category item) v.

(** ** 6) Allocation logic *)

(** One [for item in ...] loop of [allocate_category].  The function has two
    such loops, over [box_list] and over [main_list], which differ only in
    the ["from"] tag of the records they append; [src] is that tag.  The
    result is the list after the in-place updates, the records appended, and
    [needed_left] when the loop is left (by [break] or at the end). *)
Fixpoint scan (src : Source) (cat : Category) (items : list InventoryItem)
    (needed_left : Q) : list InventoryItem * list UsageRecord * Q :=
  match items with
  | [] => ([], [], needed_left)
  | item :: rest =>
      if bool_decide (category item = cat) && Qltb 0 needed_left then
        if Qleb needed_left (servings_available item) then
          (set_servings item (servings_available item - needed_left) :: rest,
           [mkUsage (item_name item) cat needed_left src],
           0)
        else if Qltb 0 (servings_available item) then
          let '(rest', used, nleft) :=
            scan src cat rest (needed_left - servings_available item) in
          (set_servings item 0 :: rest',
           mkUsage (item_name item) cat (servings_available item) src :: used,
           nleft)
        else
          let '(rest', used, nleft) := scan src cat rest needed_left in
          (item :: rest', used, nleft)
      else
        let '(rest', used, nleft) := scan src cat rest needed_left in
        (item :: rest', used, nleft)
  end.

(** The result of [allocate_category]: the two lists as the call leaves them
    (they are mutated in place), and the returned triple
    [(used_details, needed_left, shortage_flag)]. *)
Record Allocation := mkAllocation {
  box_after : list InventoryItem;
  main_after : list InventoryItem;
  used_details : list UsageRecord;
  shortfall : Q;
  is_short : bool
}.

Definition allocate_category (box_list main_list : list InventoryItem)
    (cat : Category) (needed : Q) : Allocation :=
  let '(box', used_box, needed_left) := scan box cat box_list needed in
  let '(main', used_main, needed_left) :=
    if Qltb 0 needed_left then scan main cat main_list needed_left
    else (main_list, [], needed_left) in
  mkAllocation box' main' (used_box ++ used_main) needed_left
    (Qltb 0 needed_left).

(** The result of [allocate_meal]: the two lists as the call leaves them and
    the returned pair [(used_items, shortage_any)]. *)
Record MealAllocation := mkMealAllocation {
  meal_box_after : list InventoryItem;
  meal_main_after : list InventoryItem;
  used_items : list UsageRecord;
  shortage_any : bool
}.

(** The loop [for cat, needed in meal_plan.items()] with its two
    accumulators.  A requirement mapping is a dict; it is embedded as the list
    of its [(key, value)] pairs in iteration order. *)
Fixpoint allocate_meal_loop (meal_plan : list (Category * Q))
    (box_list main_list : list InventoryItem)
    (used : list UsageRecord) (short_any : bool) : MealAllocation :=
  match meal_plan with
  | [] => mkMealAllocation box_list main_list used short_any
  | (cat, needed) :: rest =>
      if Qleb needed 0 then
        allocate_meal_loop rest box_list main_list used short_any
      else
        let a := allocate_category box_list main_list cat needed in
        allocate_meal_loop rest (box_after a) (main_after a)
          (used ++ used_details a)
          (if is_short a then true else short_any)
  end.

Definition allocate_meal (box_list main_list : list InventoryItem)
    (meal_plan : list (Category * Q)) : MealAllocation :=
  allocate_meal_loop meal_plan box_list main_list [] false.

(** ** 2) The 5-4-3-2-1 meal requirements *)

Inductive MealKey := BreakfastPlan | LunchPlan | DinnerPlan.

Definition MEALS (k : MealKey) : list (Category * Q) :=
  match k with
  | BreakfastPlan =>
      [(fruit_veg, 1); (cereal, 1); (dairy, 1); (protein, 0); (oil, 0)]
  | LunchPlan =>
      [(fruit_veg, 2); (cereal, 1); (dairy, 0); (protein, 1); (oil, 1)]
  | DinnerPlan =>
      [(fruit_veg, 2); (cereal, 2); (dairy, 1); (protein, 0); (oil, 2)]
  end.

Definition MEAL_ORDER : list MealKey := [BreakfastPlan; LunchPlan; DinnerPlan].

(** [meal_key.replace("Plan", "")]. *)
Definition meal_time_of (k : MealKey) : string :=
  match k with
  | BreakfastPlan => "Breakfast"
  | LunchPlan => "Lunch"
  | DinnerPlan => "Dinner"
  end.

(** ** 7) Summaries *)

(** An entry of [day_box_usage] or [day_main_usage]. *)
Record UsageTotal := mkTotal {
  total_item_name : string;
  total_category : Category;
  total_servings_used : Q
}.

(** A [defaultdict(float)] keyed by [(item_name, category)], as the list of
    its pairs in insertion order.  [usage_add key v m] is [m[key] += v]. *)
Fixpoint usage_add (key : string * Category) (v : Q)
    (m : list (string * Category * Q)) : list (string * Category * Q) :=
  match m with
  | [] => [(key, 0 + v)]
  | (k, t) :: r =>
      if bool_decide (k = key) then (k, t + v) :: r
      else (k, t) :: usage_add key v r
  end.

Definition map_to_list (usage_map : list (string * Category * Q))
    : list UsageTotal :=
  List.map (fun '(item_n, cat, total_used) => mkTotal item_n cat total_used)
    usage_map.

(** An entry of [day_meals]. *)
Record MealResult := mkMealResult {
  meal_time : string;
  meal_plan_requirements : list (Category * Q);
  meal_used_items : list UsageRecord
}.

(** The body of the inner loop of [summarize_day_usage], on the pair of
    maps. *)
Definition summarize_step
    (maps : list (string * Category * Q) * list (string * Category * Q))
    (used : UsageRecord)
    : list (string * Category * Q) * list (string * Category * Q) :=
  let key := (used_item_name used, used_category used) in
  match from used with
  | box => (usage_add key (servings_used used) (fst maps), snd maps)
  | main => (fst maps, usage_add key (servings_used used) (snd maps))
  end.

Definition summarize_day_usage (day_meals : list MealResult)
    : list UsageTotal * list UsageTotal :=
  let maps :=
    fold_left (fun maps meal => fold_left summarize_step (meal_used_items meal) maps)
      day_meals ([], []) in
  (map_to_list (fst maps), map_to_list (snd maps)).

(** ** 8) Generate plan: the day loop *)

(** An entry of [day_plans].  The keys [day_box_usage] and [day_main_usage]
    are only set on a day without shortage. *)
Record DayPlan := mkDayPlan {
  day_number : Z;
  meals : list MealResult;
  day_box_usage : option (list UsageTotal);
  day_main_usage : option (list UsageTotal)
}.

(** An entry of [day_shortages]. *)
Record DayShortage := mkDayShortage {
  shortage_day_number : Z;
  shortages : list string
}.

(** The loop [for meal_key in MEAL_ORDER] of one day, with its [break]:
    the lists after it, [day_meals] and [shortage_for_day]. *)
Fixpoint meals_loop (keys : list MealKey)
    (box_list main_list : list InventoryItem) (day_meals : list MealResult)
    : list InventoryItem * list InventoryItem * list MealResult * bool :=
  match keys with
  | [] => (box_list, main_list, day_meals, false)
  | meal_key :: rest =>
      let meal_req := MEALS meal_key in
      let r := allocate_meal box_list main_list meal_req in
      let day_meals :=
        day_meals ++ [mkMealResult (meal_time_of meal_key) meal_req (used_items r)] in
      if shortage_any r then
        (meal_box_after r, meal_main_after r, day_meals, true)
      else meals_loop rest (meal_box_after r) (meal_main_after r) day_meals
  end.

(** The state the month loop carries from one day to the next. *)
Record MonthState := mkMonthState {
  st_box_list : list InventoryItem;
  st_main_list : list InventoryItem;
  st_day_plans : list DayPlan;
  st_day_shortages : list DayShortage
}.

(** The body of [for day_num in range(1, 31)].  [backup_box] and
    [backup_main] are deep copies taken before the meals of the day run. *)
Definition day_step (st : MonthState) (day_num : Z) : MonthState :=
  let backup_box := st_box_list st in
  let backup_main := st_main_list st in
  let '(box_list, main_list, day_meals, shortage_for_day) :=
    meals_loop MEAL_ORDER (st_box_list st) (st_main_list st) [] in
  if shortage_for_day then
    mkMonthState backup_box backup_main
      (st_day_plans st ++ [mkDayPlan day_num [] None None])
      (st_day_shortages st ++
         [mkDayShortage day_num
            ["Not enough box+main inventory to fulfill 5-4-3-2-1 plan"]])
  else
    let '(box_usage, main_usage) := summarize_day_usage day_meals in
    mkMonthState box_list main_list
      (st_day_plans st ++
         [mkDayPlan day_num day_meals (Some box_usage) (Some main_usage)])
      (st_day_shortages st).

Definition days_loop (days : list Z) (st : MonthState) : MonthState :=
  fold_left day_step days st.

(** [range(1, 31)]. *)
Definition day_range : list Z := List.map Z.of_nat (seq 1 30).

(** [shortage_for_day] of a day that starts from the given lists. *)
Definition shortage_for_day (box_list main_list : list InventoryItem) : bool :=
  snd (meals_loop MEAL_ORDER box_list main_list []).

(** ** Spreadsheets *)

(** A cell of a column that [pd.to_numeric(.., errors="coerce")] is applied
    to: a number, something that is not one, or nothing. *)
Inductive Cell := Numeric (q : Q) | NonNumeric | Missing.

(** [pd.to_numeric(col, errors="coerce").fillna(d)] on one cell, followed by
    the [float(..)] of the row loop. *)
Definition to_numeric_fillna (d : Q) (c : Cell) : Q :=
  match c with
  | Numeric q => q
  | NonNumeric | Missing => d
  end.

(** What [pd.read_excel] hands back: a frame with its column names and its
    rows, or one of the two exceptions the loaders catch.  The rows are only
    read after the columns were checked, so a row is a record of the columns
    its loader reads. *)
Record DataFrame (R : Type) := mkFrame {
  columns : list string;
  frame_rows : list R
}.
Arguments mkFrame {R} _ _.
Arguments columns {R} _.
Arguments frame_rows {R} _.

Inductive Read (R : Type) :=
  | Loaded (df : DataFrame R)
  | FileNotFoundError
  | ValueError.
Arguments Loaded {R} _.
Arguments FileNotFoundError {R}.
Arguments ValueError {R}.

(** A call either returns or raises [Exception(msg)]. *)
Inductive Result (A : Type) :=
  | Return (a : A)
  | Raise (msg : string).
Arguments Return {A} _.
Arguments Raise {A} _.

(** The first of [needed_cols] that is not in [df.columns]. *)
Fixpoint missing_column (needed_cols cols : list string) : option string :=
  match needed_cols with
  | [] => None
  | c :: r => if bool_decide (c ∈ cols) then missing_column r cols else Some c
  end.

(** ** Strings: [str.strip()] and [str.lower()] on ASCII text *)

Definition is_space (c : ascii) : bool :=
  let n := nat_of_ascii c in
  ((9 <=? n)%nat && (n <=? 13)%nat) || ((28 <=? n)%nat && (n <=? 32)%nat).

Fixpoint lstrip (s : string) : string :=
  match s with
  | EmptyString => EmptyString
  | String c r => if is_space c then lstrip r else s
  end.

Fixpoint rstrip (s : string) : string :=
  match s with
  | EmptyString => EmptyString
  | String c r =>
      match rstrip r with
      | EmptyString => if is_space c then EmptyString else String c EmptyString
      | r' => String c r'
      end
  end.

Definition strip (s : string) : string := rstrip (lstrip s).

Definition lower_ascii (c : ascii) : ascii :=
  let n := nat_of_ascii c in
  if (65 <=? n)%nat && (n <=? 90)%nat then ascii_of_nat (n + 32) else c.

Fixpoint lower (s : string) : string :=
  match s with
  | EmptyString => EmptyString
  | String c r => String (lower_ascii c) (lower r)
  end.

(** ** 1) Category mapping *)

(** [CATEGORY_MAP.get(raw_cat, None)]. *)
Definition CATEGORY_MAP : gmap string Category :=
  list_to_map
    [("seasonal & local fruits/vegetables", fruit_veg);
     ("milk & dairy", dairy);
     ("meat/fish/eggs/pulses", protein);
     ("grains", cereal);
     ("oil", oil)].

(** ** 3) The food reference *)

Record ReferenceRow := mkReferenceRow {
  ref_item_name : string;
  ref_item_category : string;
  ref_servings_per_unit : Cell
}.

(** A value of [ref_map]. *)
Record ReferenceEntry := mkReferenceEntry {
  raw_category : string;
  servings_per_unit : Q
}.

(** The body of the row loop of [load_food_reference]:
    [ref_map[name] = {...}]. *)
Definition reference_step (ref_map : gmap string ReferenceEntry)
    (row : ReferenceRow) : gmap string ReferenceEntry :=
  let name := lower (strip (ref_item_name row)) in
  let raw_cat := lower (strip (ref_item_category row)) in
  let su := to_numeric_fillna 1 (ref_servings_per_unit row) in
  <[name := mkReferenceEntry raw_cat su]> ref_map.

Definition build_ref_map (rows : list ReferenceRow) : gmap string ReferenceEntry :=
  fold_left reference_step rows ∅.

Definition load_food_reference (file : Read ReferenceRow)
    : Result (gmap string ReferenceEntry) :=
  match file with
  | FileNotFoundError => Raise "Cannot find 'data/DATA SET FOOD CATEGORY.xlsx'."
  | ValueError =>
      Raise "Error reading 'data/DATA SET FOOD CATEGORY.xlsx'—check sheet name, columns, etc."
  | Loaded df =>
      match missing_column ["item_name"; "item_category"; "servings_per_unit"]
              (columns df) with
      | Some c =>
          Raise ("Column '" ++ c ++ "' missing in 'data/DATA SET FOOD CATEGORY.xlsx'.")
      | None => Return (build_ref_map (frame_rows df))
      end
  end.

(** ** 4) Senior box, 5) main inventory *)

Definition get_cycle_month (month : Z) : Z := ((month - 1) mod 3) + 1.

(** The sheet [load_senior_box_data_and_list] reads for a cycle month. *)
Definition sheet_name_of (cycle_month : Z) : string :=
  if (cycle_month =? 1)%Z then "Senior Box First Month"
  else if (cycle_month =? 2)%Z then "Senior Box Second Month"
  else "Senior Box Third Month".

(** A row of a box sheet ([item_name], [quantity]) or of the inventory sheet
    ([item_name], [quantity_in_stock]). *)
Record InventoryRow := mkInventoryRow {
  row_item_name : string;
  row_quantity : Cell
}.

(** The row loop of [load_senior_box_data_and_list] and of
    [load_main_inventory_items]: the two loops are the same but for the name
    of the quantity column and the text they print when they skip a row.
    [None] is [continue]. *)
Definition inventory_item_of (ref_map : gmap string ReferenceEntry)
    (row : InventoryRow) : option InventoryItem :=
  let item_n := lower (strip (row_item_name row)) in
  let qty := to_numeric_fillna 0 (row_quantity row) in
  match ref_map !! item_n with
  | None => None
  | Some entry =>
      match CATEGORY_MAP !! raw_category entry with
      | None => None
      | Some mapped_cat =>
          Some (mkItem (row_item_name row) mapped_cat
                  (qty * servings_per_unit entry))
      end
  end.

Fixpoint inventory_loop (ref_map : gmap string ReferenceEntry)
    (rows : list InventoryRow) (items : list InventoryItem)
    : list InventoryItem :=
  match rows with
  | [] => items
  | row :: rest =>
      match inventory_item_of ref_map row with
      | None => inventory_loop ref_map rest items
      | Some item => inventory_loop ref_map rest (items ++ [item])
      end
  end.

Definition load_senior_box_data_and_list (cycle_month : Z)
    (ref_map : gmap string ReferenceEntry)
    (file : string -> Read InventoryRow)
    : Result (list InventoryRow * list InventoryItem) :=
  let sheet_name := sheet_name_of cycle_month in
  match file sheet_name with
  | FileNotFoundError => Raise "Cannot find 'data/senior_box.xlsx'."
  | ValueError =>
      Raise ("Worksheet '" ++ sheet_name ++ "' not found in 'data/senior_box.xlsx'.")
  | Loaded df =>
      let box_original := frame_rows df in
      if bool_decide ("item_name" ∈ columns df)
         && bool_decide ("quantity" ∈ columns df) then
        Return (box_original, inventory_loop ref_map (frame_rows df) [])
      else
        Raise ("'item_name' or 'quantity' missing in sheet '" ++ sheet_name
               ++ "' of 'data/senior_box.xlsx'.")
  end.

Definition load_main_inventory_items (ref_map : gmap string ReferenceEntry)
    (file : Read InventoryRow) : Result (list InventoryItem) :=
  match file with
  | FileNotFoundError => Raise "Cannot find 'data/excel_file.xlsx'."
  | ValueError => Raise "Worksheet 'Inventory' not found in 'data/excel_file.xlsx'."
  | Loaded df =>
      match missing_column ["item_name"; "quantity_in_stock"] (columns df) with
      | Some c =>
          Raise ("Column '" ++ c ++ "' missing in 'Inventory' of 'data/excel_file.xlsx'.")
      | None => Return (inventory_loop ref_map (frame_rows df) [])
      end
  end.

(** ** 8) Generate plan *)

(** The three workbooks the run reads. *)
Record Workbooks := mkWorkbooks {
  food_category_xlsx : Read ReferenceRow;
  senior_box_xlsx : string -> Read InventoryRow;
  excel_file_xlsx : Read InventoryRow
}.

Record ShortageReport := mkShortageReport {
  report_type : string;
  details : list DayShortage
}.

Record MonthPlan := mkMonthPlan {
  month_requested : Z;
  cycle_month : Z;
  senior_box_items_for_month : list InventoryRow;
  final_daily_plan : list DayPlan;
  all_shortages : list ShortageReport
}.

Definition generate_monthly_plan (month : Z) (data : Workbooks)
    : Result MonthPlan :=
  match load_food_reference (food_category_xlsx data) with
  | Raise msg => Raise msg
  | Return ref_map =>
      let cyc := get_cycle_month month in
      match load_senior_box_data_and_list cyc ref_map (senior_box_xlsx data) with
      | Raise msg => Raise msg
      | Return (box_original, box_list) =>
          match load_main_inventory_items ref_map (excel_file_xlsx data) with
          | Raise msg => Raise msg
          | Return main_list =>
              let st := days_loop day_range (mkMonthState box_list main_list [] []) in
              let all_shortages :=
                match st_day_shortages st with
                | [] => []
                | day_shortages => [mkShortageReport "meal_plan_shortage" day_shortages]
                end in
              Return (mkMonthPlan month cyc box_original (st_day_plans st) all_shortages)
          end
      end
  end.

(** ** Totals over an item list *)

(** Is the item of the requested category, and has it servings left. *)
Definition has_servings (cat : Category) (item : InventoryItem) : bool :=
  bool_decide (category item = cat) && Qltb 0 (servings_available item).

(** The sum of [servings_available] over the items of a category. *)
Fixpoint total_available (cat : Category) (items : list InventoryItem) : Q :=
  match items with
  | [] => 0
  | item :: rest =>
      (if bool_decide (category item = cat) then servings_available item else 0)
      + total_available cat rest
  end.

(** The same sum over the items of the category that have servings left. *)
Fixpoint total_positive (cat : Category) (items : list InventoryItem) : Q :=
  match items with
  | [] => 0
  | item :: rest =>
      (if has_servings cat item then servings_available item else 0)
      + total_positive cat rest
  end.

(** The sum of [servings_available] over all the items of a list. *)
Definition total_servings (items : list InventoryItem) : Q :=
  Qsum (List.map servings_available items).

Definition sum_used (used : list UsageRecord) : Q :=
  Qsum (List.map servings_used used).

(** The list with every item of the category that had servings left set to
    zero, and every other item as it was. *)
Definition exhaust (cat : Category) (items : list InventoryItem)
    : list InventoryItem :=
  List.map (fun item => if has_servings cat item then set_servings item 0 else item)
    items.

(** The key and the entry a row of the reference sheet writes. *)
Definition reference_key (row : ReferenceRow) : string :=
  lower (strip (ref_item_name row)).

Definition reference_entry (row : ReferenceRow) : ReferenceEntry :=
  mkReferenceEntry (lower (strip (ref_item_category row)))
    (to_numeric_fillna 1 (ref_servings_per_unit row)).

(** ** Names in a plan *)

(** A row the inventory loops pass over: its lowercased trimmed name is not a
    key of the reference map, or the raw category found there is not a key of
    [CATEGORY_MAP]. *)
Definition skipped (ref_map : gmap string ReferenceEntry) (row : InventoryRow)
    : Prop :=
  ref_map !! lower (strip (row_item_name row)) = None
  \/ exists entry,
       ref_map !! lower (strip (row_item_name row)) = Some entry
       /\ CATEGORY_MAP !! raw_category entry = None.

(** The day plan has a usage record, or a line of one of its two usage
    summaries, with that item name. *)
Definition day_mentions (name : string) (d : DayPlan) : Prop :=
  (exists m u, In m (meals d) /\ In u (meal_used_items m)
               /\ used_item_name u = name)
  \/ (exists l t, (day_box_usage d = Some l \/ day_main_usage d = Some l)
                  /\ In t l /\ total_item_name t = name).

Definition plan_mentions (name : string) (plan : MonthPlan) : Prop :=
  exists d, In d (final_daily_plan plan) /\ day_mentions name d.

(** ** What a call may do to an item *)

(** An item before and after an allocation for [cat]: the name and the
    category are kept, the servings do not grow and do not become negative,
    and an item of another category is not touched. *)
Definition item_step (cat : Category) (before after : InventoryItem) : Prop :=
  item_name after = item_name before
  /\ category after = category before
  /\ servings_available after <= servings_available before
  /\ (0 <= servings_available before -> 0 <= servings_available after)
  /\ (category before <> cat -> after = before).

(** The same for a run over several categories. *)
Definition item_kept (before after : InventoryItem) : Prop :=
  item_name after = item_name before
  /\ category after = category before
  /\ servings_available after <= servings_available before
  /\ (0 <= servings_available before -> 0 <= servings_available after).

(** The record was taken from that item: same name, the category asked for,
    a positive amount that the item had. *)
Definition taken_from (cat : Category) (src : Source)
    (items : list InventoryItem) (u : UsageRecord) : Prop :=
  from u = src
  /\ used_category u = cat
  /\ exists item, In item items
       /\ category item = cat
       /\ item_name item = used_item_name u
       /\ 0 < servings_used u
       /\ servings_used u <= servings_available item.

(** The amount the records of one category add up to. *)
Fixpoint used_of_category (cat : Category) (used : list UsageRecord) : Q :=
  match used with
  | [] => 0
  | u :: r =>
      (if bool_decide (used_category u = cat) then servings_used u else 0)
      + used_of_category cat r
  end.

(** The amount a requirement mapping asks of one category: its positive
    entries for that key. *)
Fixpoint required (cat : Category) (meal_plan : list (Category * Q)) : Q :=
  match meal_plan with
  | [] => 0
  | (c, needed) :: r =>
      (if bool_decide (c = cat) && Qltb 0 needed then needed else 0)
      + required cat r
  end.

(** ** Keys and amounts of a day *)

(** All the usage records of the meals of a day, in order. *)
Definition day_records (day_meals : list MealResult) : list UsageRecord :=
  concat (List.map meal_used_items day_meals).

(** The key a record is summed under, and the key of a summary line. *)
Definition usage_key (u : UsageRecord) : string * Category :=
  (used_item_name u, used_category u).

Definition total_key (t : UsageTotal) : string * Category :=
  (total_item_name t, total_category t).

(** The amount the records of one source and one key add up to. *)
Fixpoint used_of_key (src : Source) (key : string * Category)
    (used : list UsageRecord) : Q :=
  match used with
  | [] => 0
  | u :: r =>
      (if bool_decide (from u = src) && bool_decide (usage_key u = key)
       then servings_used u else 0)
      + used_of_key src key r
  end.

(** The amount the records of one source add up to. *)
Definition used_of_source (src : Source) (used : list UsageRecord) : Q :=
  Qsum (List.map (fun u => if bool_decide (from u = src) then servings_used u else 0)
          used).

Definition sum_totals (l : list UsageTotal) : Q :=
  Qsum (List.map total_servings_used l).

(** [usage_map[key]] of a usage map, zero for a key that is not in it. *)
Fixpoint usage_get (key : string * Category)
    (usage_map : list (string * Category * Q)) : Q :=
  match usage_map with
  | [] => 0
  | (k, t) :: r => if bool_decide (k = key) then t else usage_get key r
  end.

(** The map of one source in the pair of maps of [summarize_day_usage]. *)
Definition side (src : Source)
    (maps : list (string * Category * Q) * list (string * Category * Q))
    : list (string * Category * Q) :=
  match src with
  | box => fst maps
  | main => snd maps
  end.

(** ** The two kinds of day plan *)

(** A shortage day: no meal, no usage summary. *)
Definition short_day (d : DayPlan) : Prop :=
  meals d = [] /\ day_box_usage d = None /\ day_main_usage d = None.

(** A served day: the three meals in order, each with its requirement table,
    and the two summaries of their records. *)
Definition full_day (d : DayPlan) : Prop :=
  List.map meal_time (meals d) = ["Breakfast"; "Lunch"; "Dinner"]
  /\ List.map meal_plan_requirements (meals d) = List.map MEALS MEAL_ORDER
  /\ day_box_usage d = Some (fst (summarize_day_usage (meals d)))
  /\ day_main_usage d = Some (snd (summarize_day_usage (meals d))).

Definition is_short_day (d : DayPlan) : bool :=
  match day_box_usage d with
  | None => true
  | Some _ => false
  end.

(** What the three requirement tables ask of a category in a day. *)
Definition daily_requirement (c : Category) : Q :=
  Qsum (List.map (fun k => required c (MEALS k)) MEAL_ORDER).

(** The servings the records of a list of day plans add up to. *)
Definition plans_used (plans : list DayPlan) : Q :=
  Qsum (List.map (fun d => sum_used (day_records (meals d))) plans).

(** ** Sheets that load *)

(** The sheet was read and has the columns its loader asks for. *)
Definition sheet_ok {R : Type} (needed_cols : list string) (file : Read R)
    : Prop :=
  exists df, file = Loaded df /\ Forall (fun c => c ∈ columns df) needed_cols.

(** The entry of [day_shortages] for a day. *)
Definition shortage_entry (day_num : Z) : DayShortage :=
  mkDayShortage day_num
    ["Not enough box+main inventory to fulfill 5-4-3-2-1 plan"].

(** ** A small set of workbooks *)

(** Five reference rows, a box that covers one day of meals, and an empty
    inventory sheet. *)
Definition sample_workbooks : Workbooks :=
  mkWorkbooks
    (Loaded (mkFrame ["item_name"; "item_category"; "servings_per_unit"]
               [mkReferenceRow "Apple" "Seasonal & Local Fruits/Vegetables" (Numeric 2);
                mkReferenceRow "Rice" "Grains" (Numeric 1);
                mkReferenceRow "Milk" "Milk & Dairy" (Numeric 1);
                mkReferenceRow "Dal" "Meat/Fish/Eggs/Pulses" (Numeric 1);
                mkReferenceRow "Ghee" "Oil" (Numeric 1)]))
    (fun _ =>
       Loaded (mkFrame ["item_name"; "quantity"]
                 [mkInventoryRow "Apple" (Numeric 3);
                  mkInventoryRow "Rice" (Numeric 5);
                  mkInventoryRow "Milk" (Numeric 3);
                  mkInventoryRow "Dal" (Numeric 2);
                  mkInventoryRow "Ghee" (Numeric 4)]))
    (Loaded (mkFrame ["item_name"; "quantity_in_stock"] [])).

(** The plan of month 1 for these workbooks. *)
Definition sample_plan : MonthPlan :=
  Eval vm_compute in
    match generate_monthly_plan 1 sample_workbooks with
    | Return plan => plan
    | Raise _ => mkMonthPlan 0 0 [] [] []
    end.

(** ** Whole amounts *)

(** Up to this bound every whole number is a double, and sums and
    differences of whole numbers that stay within it are computed by the
    double operations without rounding. *)
Definition double_limit : Q := 9007199254740992.

(** A whole number within the bound. *)
Definition whole (q : Q) : bool :=
  (Qden (Qred q) =? 1)%positive && Qleb (Qabs q) double_limit.

(** A list whose servings are whole numbers, with a total within the bound. *)
Definition whole_stock (items : list InventoryItem) : bool :=
  forallb (fun item => whole (servings_available item)) items
  && Qleb (Qsum (List.map (fun item => Qabs (servings_available item)) items))
       double_limit.

(** A requirement mapping of whole numbers. *)
Definition whole_plan (meal_plan : list (Category * Q)) : bool :=
  forallb (fun entry => whole (snd entry)) meal_plan.

(** Records of whole amounts, with a total within the bound. *)
Definition whole_records (used : list UsageRecord) : bool :=
  forallb (fun u => whole (servings_used u)) used
  && Qleb (Qsum (List.map (fun u => Qabs (servings_used u)) used)) double_limit.

(** ** The allocator in double precision *)

(** [allocate_category] as Python runs it: [servings_available],
    [needed_left] and [servings_used] are IEEE 754 doubles, [-=] is the
    rounded subtraction and the comparisons are those of doubles. *)
Module Double.

Record InventoryItem := mkItem {
  item_name : string;
  category : Category;
  servings_available : float
}.

Record UsageRecord := mkUsage {
  used_item_name : string;
  used_category : Category;
  servings_used : float;
  from : Source
}.

Definition set_servings (item : InventoryItem) (v : float) : InventoryItem :=
  mkItem (item_name item) (category item) v.

Fixpoint scan (src : Source) (cat : Category) (items : list InventoryItem)
    (needed_left : float) : list InventoryItem * list UsageRecord * float :=
  match items with
  | [] => ([], [], needed_left)
  | item :: rest =>
      if bool_decide (category item = cat) && (0 <? needed_left)%float then
        if (needed_left <=? servings_available item)%float then
          (set_servings item (servings_available item - needed_left)%float :: rest,
           [mkUsage (item_name item) cat needed_left src],
           0%float)
        else if (0 <? servings_available item)%float then
          let '(rest', used, nleft) :=
            scan src cat rest (needed_left - servings_available item)%float in
          (set_servings item 0%float :: rest',
           mkUsage (item_name item) cat (servings_available item) src :: used,
           nleft)
        else
          let '(rest', used, nleft) := scan src cat rest needed_left in
          (item :: rest', used, nleft)
      else
        let '(rest', used, nleft) := scan src cat rest needed_left in
        (item :: rest', used, nleft)
  end.

Record Allocation := mkAllocation {
  box_after : list InventoryItem;
  main_after : list InventoryItem;
  used_details : list UsageRecord;
  shortfall : float;
  is_short : bool
}.

Definition allocate_category (box_list main_list : list InventoryItem)
    (cat : Category) (needed : float) : Allocation :=
  let '(box', used_box, needed_left) := scan box cat box_list needed in
  let '(main', used_main, needed_left) :=
    if (0 <? needed_left)%float then scan main cat main_list needed_left
    else (main_list, [], needed_left) in
  mkAllocation box' main' (used_box ++ used_main) needed_left
    (0 <? needed_left)%float.

(** The rational a finite double stands for. *)
Definition exact (f : float) : Q :=
  match Prim2SF f with
  | S754_finite s m e =>
      (if s then -1 else 1) * inject_Z (Zpos m) * Qpower 2 e
  | _ => 0
  end.

(** The exact sums the claims speak of. *)
Definition total_available (cat : Category) (items : list InventoryItem) : Q :=
  Qsum (List.map (fun item =>
                    if bool_decide (category item = cat)
                    then exact (servings_available item) else 0) items).

Definition total_servings (items : list InventoryItem) : Q :=
  Qsum (List.map (fun item => exact (servings_available item)) items).

Definition sum_used (used : list UsageRecord) : Q :=
  Qsum (List.map (fun u => exact (servings_used u)) used).

End Double.

(** * Properties *)

(** ** Comparisons *)

Lemma Qltb_spec (x y : Q) : reflect (x < y) (Qltb x y).
Proof.
  unfold Qltb. destruct (Qle_bool y x) eqn:E; constructor.
  - apply Qle_bool_iff in E. apply Qle_not_lt, E.
  - apply Qnot_le_lt. intros H. apply Qle_bool_iff in H. congruence.
Qed.

Lemma Qleb_spec (x y : Q) : reflect (x <= y) (Qleb x y).
Proof.
  unfold Qleb. destruct (Qle_bool x y) eqn:E; constructor.
  - apply Qle_bool_iff, E.
  - intros H. apply Qle_bool_iff in H. congruence.
Qed.

Lemma Qltb_false_le (x y : Q) : Qltb x y = false -> y <= x.
Proof. destruct (Qltb_spec x y); [discriminate | intros _; lra]. Qed.

Lemma Qltb_true_lt (x y : Q) : Qltb x y = true -> x < y.
Proof. destruct (Qltb_spec x y); [tauto | discriminate]. Qed.

(** ** Totals *)

Lemma sum_used_app (u v : list UsageRecord) :
  sum_used (u ++ v) == sum_used u + sum_used v.
Proof.
  unfold sum_used. induction u as [|x u IH]; simpl; [lra|].
  rewrite IH. lra.
Qed.

Lemma total_positive_nonneg (cat : Category) (items : list InventoryItem) :
  0 <= total_positive cat items.
Proof.
  induction items as [|item rest IH]; simpl; [lra|].
  unfold has_servings.
  destruct (bool_decide (category item = cat)); simpl; [|lra].
  destruct (Qltb_spec 0 (servings_available item)); lra.
Qed.

Lemma total_available_le_positive (cat : Category) (items : list InventoryItem) :
  total_available cat items <= total_positive cat items.
Proof.
  induction items as [|item rest IH]; simpl; [lra|].
  unfold has_servings.
  destruct (bool_decide (category item = cat)); simpl; [|lra].
  destruct (Qltb_spec 0 (servings_available item)); lra.
Qed.

Lemma total_positive_eq_available (cat : Category) (items : list InventoryItem) :
  Forall (fun item => category item = cat -> 0 <= servings_available item) items ->
  total_positive cat items == total_available cat items.
Proof.
  induction 1 as [|item rest Hitem _ IH]; simpl; [lra|].
  unfold has_servings.
  destruct (bool_decide_reflect (category item = cat)) as [Hc|Hc]; simpl; [|lra].
  specialize (Hitem Hc).
  destruct (Qltb_spec 0 (servings_available item)); lra.
Qed.

(** ** The scan of one list *)

Section Scan.
Variables (src : Source) (cat : Category).

(** With nothing left to find the loop changes nothing. *)
Lemma scan_nothing_needed (items : list InventoryItem) (n : Q) :
  n <= 0 -> scan src cat items n = (items, [], n).
Proof.
  intros Hn. induction items as [|item rest IH]; simpl; [reflexivity|].
  destruct (Qltb_spec 0 n); [lra|].
  rewrite andb_false_r, IH. reflexivity.
Qed.

(** With something to find, the loop either stops at an item that covers
    what is left, or runs to the end having emptied every item of the
    category that had servings. *)
Lemma scan_needed (items : list InventoryItem) (n : Q) :
  0 < n ->
  forall items' used nl, scan src cat items n = (items', used, nl) ->
  (nl = 0 /\ sum_used used == n /\ n <= total_positive cat items)
  \/ (0 < nl /\ nl == n - total_positive cat items
      /\ sum_used used == total_positive cat items
      /\ items' = exhaust cat items).
Proof.
  revert n. induction items as [|item rest IH]; intros n Hn items' used nl; simpl.
  - intros [= <- <- <-]. right. unfold sum_used. simpl. repeat split; lra.
  - unfold has_servings.
    pose proof (total_positive_nonneg cat rest) as Hpos.
    destruct (bool_decide (category item = cat)); simpl.
    + destruct (Qltb_spec 0 n); [|lra]. simpl.
      destruct (Qleb_spec n (servings_available item)) as [Hle|Hle].
      * intros [= <- <- <-]. left. unfold sum_used. simpl.
        destruct (Qltb_spec 0 (servings_available item)); [|lra].
        repeat split; lra.
      * destruct (Qltb_spec 0 (servings_available item)) as [Ha|Ha].
        -- destruct (scan src cat rest (n - servings_available item))
             as [[r' u'] l'] eqn:E.
           intros [= <- <- <-].
           destruct (IH (n - servings_available item) ltac:(lra) _ _ _ E)
             as [(-> & Hs & Ht) | (Hl & Hn' & Hs & ->)].
           ++ left. unfold sum_used in *. simpl. repeat split; lra.
           ++ right. unfold sum_used in *. simpl. repeat split; lra.
        -- destruct (scan src cat rest n) as [[r' u'] l'] eqn:E.
           intros [= <- <- <-].
           destruct (IH n Hn _ _ _ E)
             as [(-> & Hs & Ht) | (Hl & Hn' & Hs & ->)].
           ++ left. repeat split; lra.
           ++ right. repeat split; lra.
    + destruct (scan src cat rest n) as [[r' u'] l'] eqn:E.
      intros [= <- <- <-].
      destruct (IH n Hn _ _ _ E)
        as [(-> & Hs & Ht) | (Hl & Hn' & Hs & ->)].
      * left. repeat split; lra.
      * right. repeat split; lra.
Qed.

(** What the records say was used is what the list lost. *)
Lemma scan_conserves (items : list InventoryItem) (n : Q) :
  forall items' used nl, scan src cat items n = (items', used, nl) ->
  sum_used used == total_servings items - total_servings items'.
Proof.
  revert n. induction items as [|item rest IH]; intros n items' used nl; simpl.
  - intros [= <- <- <-]. unfold sum_used, total_servings. simpl. lra.
  - destruct (bool_decide (category item = cat) && Qltb 0 n).
    + destruct (Qleb n (servings_available item)).
      * intros [= <- <- <-]. unfold sum_used, total_servings. simpl. lra.
      * destruct (Qltb 0 (servings_available item)).
        -- destruct (scan src cat rest (n - servings_available item))
             as [[r' u'] l'] eqn:E.
           intros [= <- <- <-]. specialize (IH _ _ _ _ E).
           unfold sum_used, total_servings in *. simpl. lra.
        -- destruct (scan src cat rest n) as [[r' u'] l'] eqn:E.
           intros [= <- <- <-]. specialize (IH _ _ _ _ E).
           unfold sum_used, total_servings in *. simpl. lra.
    + destruct (scan src cat rest n) as [[r' u'] l'] eqn:E.
      intros [= <- <- <-]. specialize (IH _ _ _ _ E).
      unfold sum_used, total_servings in *. simpl. lra.
Qed.

(** Every record of the loop is a positive amount, tagged with the source
    and the category, and names an item of the list. *)
Lemma scan_records (items : list InventoryItem) (n : Q) :
  forall items' used nl, scan src cat items n = (items', used, nl) ->
  Forall (fun u => 0 < servings_used u /\ from u = src /\ used_category u = cat
                   /\ In (used_item_name u) (List.map item_name items)) used.
Proof.
  revert n. induction items as [|item rest IH]; intros n items' used nl; simpl.
  - intros [= <- <- <-]. constructor.
  - destruct (bool_decide (category item = cat)); simpl.
    + destruct (Qltb_spec 0 n) as [Hn|Hn]; simpl.
      * destruct (Qleb n (servings_available item)).
        -- intros [= <- <- <-]. repeat constructor; simpl; auto.
        -- destruct (Qltb_spec 0 (servings_available item)) as [Ha|Ha].
           ++ destruct (scan src cat rest (n - servings_available item))
                as [[r' u'] l'] eqn:E.
              intros [= <- <- <-]. specialize (IH _ _ _ _ E).
              constructor; [simpl; auto|].
              eapply Forall_impl; [exact IH|]. simpl. intuition.
           ++ destruct (scan src cat rest n) as [[r' u'] l'] eqn:E.
              intros [= <- <- <-]. specialize (IH _ _ _ _ E).
              eapply Forall_impl; [exact IH|]. simpl. intuition.
      * destruct (scan src cat rest n) as [[r' u'] l'] eqn:E.
        intros [= <- <- <-]. specialize (IH _ _ _ _ E).
        eapply Forall_impl; [exact IH|]. simpl. intuition.
    + destruct (scan src cat rest n) as [[r' u'] l'] eqn:E.
      intros [= <- <- <-]. specialize (IH _ _ _ _ E).
      eapply Forall_impl; [exact IH|]. simpl. intuition.
Qed.

(** The loop only writes [servings_available]: names and categories stay. *)
Lemma scan_names (items : list InventoryItem) (n : Q) :
  forall items' used nl, scan src cat items n = (items', used, nl) ->
  List.map item_name items' = List.map item_name items.
Proof.
  revert n. induction items as [|item rest IH]; intros n items' used nl; simpl.
  - intros [= <- <- <-]. reflexivity.
  - destruct (bool_decide (category item = cat) && Qltb 0 n).
    + destruct (Qleb n (servings_available item)).
      * intros [= <- <- <-]. reflexivity.
      * destruct (Qltb 0 (servings_available item)).
        -- destruct (scan src cat rest (n - servings_available item))
             as [[r' u'] l'] eqn:E.
           intros [= <- <- <-]. simpl. f_equal. eapply IH, E.
        -- destruct (scan src cat rest n) as [[r' u'] l'] eqn:E.
           intros [= <- <- <-]. simpl. f_equal. eapply IH, E.
    + destruct (scan src cat rest n) as [[r' u'] l'] eqn:E.
      intros [= <- <- <-]. simpl. f_equal. eapply IH, E.
Qed.
End Scan.

(** ** [allocate_category] *)

(** The two ways through [allocate_category]: the box scan leaves nothing to
    find and the main list is not looked at, or it leaves [needed_left > 0]
    and the main list is scanned for that amount. *)
Lemma allocate_category_cases (box_list main_list : list InventoryItem)
    (cat : Category) (needed : Q) :
  forall box' used_box nl,
  scan box cat box_list needed = (box', used_box, nl) ->
  (nl <= 0
   /\ allocate_category box_list main_list cat needed
      = mkAllocation box' main_list (used_box ++ []) nl false)
  \/ (0 < nl
      /\ exists main' used_main nl',
         scan main cat main_list nl = (main', used_main, nl')
         /\ allocate_category box_list main_list cat needed
            = mkAllocation box' main' (used_box ++ used_main) nl' (Qltb 0 nl')).
Proof.
  intros box' used_box nl E. unfold allocate_category. rewrite E.
  destruct (Qltb_spec 0 nl) as [Hnl|Hnl].
  - right. split; [exact Hnl|].
    destruct (scan main cat main_list nl) as [[main' used_main] nl'] eqn:E'.
    exists main', used_main, nl'. split; reflexivity.
  - left. split; [lra|]. destruct (Qltb_spec 0 nl); [lra | reflexivity].
Qed.

Lemma exhaust_no_servings (cat : Category) (items : list InventoryItem) :
  Forall (fun item => category item = cat -> servings_available item <= 0)
    (exhaust cat items).
Proof.
  induction items as [|item rest IH]; simpl; constructor; [|exact IH].
  unfold has_servings.
  destruct (bool_decide_reflect (category item = cat)) as [Hc|Hc]; simpl.
  - destruct (Qltb_spec 0 (servings_available item)); simpl; intros _; lra.
  - intros Hc'. contradiction.
Qed.

Lemma allocate_category_names (box_list main_list : list InventoryItem)
    (cat : Category) (needed : Q) :
  let a := allocate_category box_list main_list cat needed in
  List.map item_name (box_after a) = List.map item_name box_list
  /\ List.map item_name (main_after a) = List.map item_name main_list
  /\ Forall (fun u => In (used_item_name u)
                        (List.map item_name box_list ++ List.map item_name main_list))
       (used_details a).
Proof.
  destruct (scan box cat box_list needed) as [[box' used_box] nl] eqn:E.
  pose proof (scan_names _ _ _ _ _ _ _ E) as Hnb.
  pose proof (scan_records _ _ _ _ _ _ _ E) as Hrb.
  destruct (allocate_category_cases box_list main_list cat needed _ _ _ E)
    as [(_ & ->) | (_ & main' & used_main & nl' & E' & ->)]; simpl.
  - repeat split; auto. rewrite app_nil_r.
    eapply Forall_impl; [exact Hrb|]. simpl. intros u (_ & _ & _ & Hin).
    apply in_or_app. left. exact Hin.
  - pose proof (scan_names _ _ _ _ _ _ _ E') as Hnm.
    pose proof (scan_records _ _ _ _ _ _ _ E') as Hrm.
    repeat split; auto. apply Forall_app. split.
    + eapply Forall_impl; [exact Hrb|]. simpl. intros u (_ & _ & _ & Hin).
      apply in_or_app. left. exact Hin.
    + eapply Forall_impl; [exact Hrm|]. simpl. intros u (_ & _ & _ & Hin).
      apply in_or_app. right. exact Hin.
Qed.

(** With [needed <= 0] neither loop does anything. *)
Lemma allocate_category_idle
    (box_list main_list : list InventoryItem) (cat : Category) (needed : Q) :
  needed <= 0 ->
  allocate_category box_list main_list cat needed
  = mkAllocation box_list main_list [] needed false.
Proof.
  intros Hn. unfold allocate_category.
  rewrite scan_nothing_needed by exact Hn.
  assert (Hf : Qltb 0 needed = false)
    by (destruct (Qltb_spec 0 needed); [lra | reflexivity]).
  rewrite Hf. simpl. rewrite Hf. reflexivity.
Qed.

(** The scenario of the spec: five apples at two servings each, one serving
    of fruit needed. *)
Example scenario_apple :
  allocate_category [mkItem "apple" fruit_veg 10] [] fruit_veg 1
  = mkAllocation [mkItem "apple" fruit_veg (10 - 1)] []
      [mkUsage "apple" fruit_veg 1 box] 0 false.
Proof. reflexivity. Qed.

(** C10.  A call of [allocate_category] with [needed <= 0] modifies no item
    of either list, returns an empty usage list and [is_short = false], and
    its shortfall is [needed] itself: for a negative [needed] the shortfall
    is that negative number, not zero. *)
Theorem allocate_category_nothing_needed
    (box_list main_list : list InventoryItem) (cat : Category) (needed : Q) :
  needed <= 0 ->
  let a := allocate_category box_list main_list cat needed in
  box_after a = box_list
  /\ main_after a = main_list
  /\ used_details a = []
  /\ is_short a = false
  /\ shortfall a = needed
  /\ (needed < 0 -> shortfall a < 0 /\ ~ shortfall a == 0).
Proof.
  intros Hn. cbv zeta. rewrite allocate_category_idle by exact Hn. simpl.
  repeat split; auto; lra.
Qed.

Lemma allocate_category_nothing_needed_witness :
  let a := allocate_category [mkItem "milk" dairy 3] [mkItem "curd" dairy 2]
             dairy (-2) in
  box_after a = [mkItem "milk" dairy 3]
  /\ main_after a = [mkItem "curd" dairy 2]
  /\ used_details a = []
  /\ is_short a = false
  /\ shortfall a = -2.
Proof.
  destruct (allocate_category_nothing_needed
              [mkItem "milk" dairy 3] [mkItem "curd" dairy 2] dairy (-2))
    as (H1 & H2 & H3 & H4 & H5 & _); [lra|].
  repeat split; assumption.
Defined.

(** C1, as the spec states it, fails in two ways.  For a negative [needed]
    nothing is used, so the amounts used sum to zero and not to [needed].
    And in double precision a need that the stock covers exactly can come
    out short: with 0.2, 0.2 and 0.6 in the box, which add up to exactly 1,
    and [needed = 1], the code computes (1 - 0.2) - 0.2 =
    0.6000000000000001, which the last item does not cover. *)
Lemma allocate_category_sufficient_fails :
  (let a := allocate_category [] [] dairy (-1) in
   -1 <= total_available dairy [] + total_available dairy []
   /\ ~ (is_short a = false /\ sum_used (used_details a) == -1))
  /\ (let box_list := [Double.mkItem "apple" fruit_veg 0.2;
                       Double.mkItem "pear" fruit_veg 0.2;
                       Double.mkItem "plum" fruit_veg 0.6] in
      let a := Double.allocate_category box_list [] fruit_veg 1 in
      Double.exact 1
      <= Double.total_available fruit_veg box_list
         + Double.total_available fruit_veg []
      /\ ~ (Double.is_short a = false
            /\ Double.sum_used (Double.used_details a) == Double.exact 1)).
Proof.
  split.
  - simpl. split; [lra|]. intros [_ H]. unfold sum_used in H. simpl in H. lra.
  - cbv zeta. split.
    + vm_compute. discriminate.
    + intros [H _]. vm_compute in H. discriminate H.
Qed.

(** C1 (amended).  For every category and every [needed >= 0] that is at most
    the sum of [servings_available] over the items of that category in both
    lists, when [needed] and the servings of the lists are whole numbers
    within the range in which doubles subtract without rounding,
    [allocate_category] returns [is_short = false] and the amounts used sum
    to [needed]. *)
Theorem allocate_category_sufficient
    (box_list main_list : list InventoryItem) (cat : Category) (needed : Q) :
  whole_stock (box_list ++ main_list) = true ->
  whole needed = true ->
  0 <= needed ->
  needed <= total_available cat box_list + total_available cat main_list ->
  let a := allocate_category box_list main_list cat needed in
  is_short a = false /\ sum_used (used_details a) == needed.
Proof.
  intros _ _ H0 Hle.
  destruct (Qltb_spec 0 needed) as [Hpos|Hzero].
  - destruct (scan box cat box_list needed) as [[box' used_box] nl] eqn:E.
    pose proof (total_available_le_positive cat box_list) as Hb.
    pose proof (total_available_le_positive cat main_list) as Hm.
    destruct (allocate_category_cases box_list main_list cat needed _ _ _ E)
      as [(Hnl & ->) | (Hnl & main' & used_main & nl' & E' & ->)]; simpl;
      destruct (scan_needed _ _ _ _ Hpos _ _ _ E)
        as [(-> & Hs & _) | (Hl & Hn & Hs & _)]; try lra.
    + split; [reflexivity|]. rewrite sum_used_app. unfold sum_used at 2.
      simpl. lra.
    + destruct (scan_needed _ _ _ _ Hnl _ _ _ E')
        as [(-> & Hs' & _) | (Hl' & Hn' & _ & _)]; [|lra].
      split; [reflexivity|]. rewrite sum_used_app. lra.
  - rewrite allocate_category_idle by lra. simpl.
    split; [reflexivity|]. unfold sum_used. simpl. lra.
Qed.

Lemma allocate_category_sufficient_witness :
  let a := allocate_category [mkItem "rice" cereal 1; mkItem "oats" cereal 2]
             [mkItem "wheat" cereal 4] cereal 5 in
  is_short a = false /\ sum_used (used_details a) == 5.
Proof.
  apply allocate_category_sufficient;
    [reflexivity | reflexivity | lra | simpl; lra].
Defined.

(** C2, as the spec states it, fails in two ways.  An item of the category
    with a negative [servings_available] lowers the total available, but the
    scan passes over it, so a later item can still cover [needed].  And in
    double precision a need that exceeds the stock can come out met: with
    0.3 and 0.7 in the box, which add up to less than 1, and [needed = 1],
    the code computes 1 - 0.3 = 0.7, which the second item covers. *)
Lemma allocate_category_short_fails :
  (let box_list := [mkItem "milk" dairy (-1); mkItem "curd" dairy 2] in
   let a := allocate_category box_list [] dairy (3 # 2) in
   total_available dairy box_list + total_available dairy [] < 3 # 2
   /\ ~ (is_short a = true
         /\ shortfall a
            == (3 # 2) - (total_available dairy box_list
                          + total_available dairy [])))
  /\ (let box_list := [Double.mkItem "milk" dairy 0.3;
                       Double.mkItem "curd" dairy 0.7] in
      let a := Double.allocate_category box_list [] dairy 1 in
      Double.total_available dairy box_list + Double.total_available dairy []
      < Double.exact 1
      /\ ~ (Double.is_short a = true
            /\ Double.exact (Double.shortfall a)
               == Double.exact 1
                  - (Double.total_available dairy box_list
                     + Double.total_available dairy []))).
Proof.
  split.
  - simpl. split; [lra|]. intros [H _]. discriminate H.
  - cbv zeta. split.
    + vm_compute. reflexivity.
    + intros [H _]. vm_compute in H. discriminate H.
Qed.

(** C2 (amended).  For every category and every [needed] strictly greater
    than the total of the positive [servings_available] of the items of that
    category in both lists, when [needed] and the servings of the lists are
    whole numbers within the range in which doubles subtract without
    rounding, [allocate_category] returns [is_short = true] with a shortfall
    of [needed] minus that total, and leaves every item of the category that
    had positive servings at zero (the other items are as they were).  When
    no item of the category has a negative [servings_available] that total
    is the total available. *)
Theorem allocate_category_short
    (box_list main_list : list InventoryItem) (cat : Category) (needed : Q) :
  whole_stock (box_list ++ main_list) = true ->
  whole needed = true ->
  total_positive cat box_list + total_positive cat main_list < needed ->
  let a := allocate_category box_list main_list cat needed in
  is_short a = true
  /\ shortfall a
     == needed - (total_positive cat box_list + total_positive cat main_list)
  /\ box_after a = exhaust cat box_list
  /\ main_after a = exhaust cat main_list
  /\ (Forall (fun item => category item = cat -> 0 <= servings_available item)
        (box_list ++ main_list) ->
      shortfall a
      == needed - (total_available cat box_list + total_available cat main_list)).
Proof.
  intros _ _ Hlt.
  pose proof (total_positive_nonneg cat box_list) as Hb.
  pose proof (total_positive_nonneg cat main_list) as Hm.
  assert (Hpos : 0 < needed) by lra.
  destruct (scan box cat box_list needed) as [[box' used_box] nl] eqn:E.
  destruct (scan_needed _ _ _ _ Hpos _ _ _ E)
    as [(-> & _ & Hle) | (Hl & Hn & _ & ->)]; [lra|].
  destruct (allocate_category_cases box_list main_list cat needed _ _ _ E)
    as [(Hnl & _) | (Hnl & main' & used_main & nl' & E' & ->)]; [lra|]. simpl.
  destruct (scan_needed _ _ _ _ Hnl _ _ _ E')
    as [(-> & _ & Hle) | (Hl' & Hn' & _ & ->)]; [lra|].
  destruct (Qltb_spec 0 nl'); [|lra].
  repeat split; [lra|].
  intros Hall. apply Forall_app in Hall as [Hab Ham].
  pose proof (total_positive_eq_available cat box_list Hab) as Eb.
  pose proof (total_positive_eq_available cat main_list Ham) as Em.
  lra.
Qed.

Lemma allocate_category_short_witness :
  let box_list := [mkItem "milk" dairy 1; mkItem "rice" cereal 7] in
  let main_list := [mkItem "curd" dairy 2] in
  let a := allocate_category box_list main_list dairy 5 in
  is_short a = true /\ shortfall a == 2.
Proof.
  destruct (allocate_category_short
              [mkItem "milk" dairy 1; mkItem "rice" cereal 7]
              [mkItem "curd" dairy 2] dairy 5) as (H1 & H2 & _).
  - reflexivity.
  - reflexivity.
  - vm_compute. reflexivity.
  - split; [exact H1|]. simpl in *. lra.
Defined.

(** C3, as the spec states it, fails when a box item of the category has a
    negative [servings_available]: the scan passes over it, the main list is
    used, and the box item is not at zero. *)
Lemma allocate_category_negative_box_item :
  let a := allocate_category [mkItem "milk" dairy (-1)] [mkItem "curd" dairy 5]
             dairy 1 in
  (exists u, In u (used_details a) /\ from u = main)
  /\ ~ Forall (fun item => category item = dairy -> servings_available item == 0)
         (box_after a).
Proof.
  simpl. split.
  - exists (mkUsage "curd" dairy 1 main). split; [left|]; reflexivity.
  - intros H. inversion H as [|item rest Hitem _]; subst.
    specialize (Hitem eq_refl). simpl in Hitem. lra.
Qed.

(** C3 (amended).  In every call of [allocate_category], a returned usage
    record with source [main] implies that [needed_left] was still positive
    after the full box scan and that no box item of the requested category
    has servings left: every one that had positive servings is at zero, and
    the ones at zero or below are as they were.  This holds for every box
    list, hence for every ordering of its items. *)
Theorem allocate_category_box_first
    (box_list main_list : list InventoryItem) (cat : Category) (needed : Q)
    (u : UsageRecord) :
  let a := allocate_category box_list main_list cat needed in
  In u (used_details a) ->
  from u = main ->
  0 < snd (scan box cat box_list needed)
  /\ box_after a = exhaust cat box_list
  /\ Forall (fun item => category item = cat -> servings_available item <= 0)
       (box_after a).
Proof.
  destruct (scan box cat box_list needed) as [[box' used_box] nl] eqn:E.
  pose proof (scan_records _ _ _ _ _ _ _ E) as Hrb.
  assert (Hbox : forall v, In v used_box -> from v = main -> False).
  { intros v Hv Hfrom. rewrite List.Forall_forall in Hrb.
    destruct (Hrb v Hv) as (_ & Hsrc & _). congruence. }
  destruct (allocate_category_cases box_list main_list cat needed _ _ _ E)
    as [(Hnl & ->) | (Hnl & main' & used_main & nl' & E' & ->)]; simpl;
    intros Hin Hfrom.
  - rewrite app_nil_r in Hin. destruct (Hbox u Hin Hfrom).
  - assert (Hpos : 0 < needed).
    { destruct (Qltb_spec 0 needed) as [H|H]; [exact H|].
      rewrite scan_nothing_needed in E by lra.
      injection E as _ _ <-. lra. }
    destruct (scan_needed _ _ _ _ Hpos _ _ _ E)
      as [(-> & _ & _) | (_ & _ & _ & ->)]; [lra|].
    repeat split; [exact Hnl | apply exhaust_no_servings].
Qed.

Lemma allocate_category_box_first_witness :
  let box_list := [mkItem "milk" dairy 1; mkItem "ghee" dairy 0] in
  let a := allocate_category box_list [mkItem "curd" dairy 5] dairy 2 in
  In (mkUsage "curd" dairy (2 - 1) main) (used_details a)
  /\ 0 < snd (scan box dairy box_list 2)
  /\ box_after a = exhaust dairy box_list.
Proof.
  assert (Hin : In (mkUsage "curd" dairy (2 - 1) main)
                  (used_details
                     (allocate_category
                        [mkItem "milk" dairy 1; mkItem "ghee" dairy 0]
                        [mkItem "curd" dairy 5] dairy 2))).
  { simpl. right. left. reflexivity. }
  destruct (allocate_category_box_first _ _ _ _ _ Hin eq_refl) as (H1 & H2 & _).
  repeat split; assumption.
Defined.

(** C9, as the spec states it, fails in double precision: with 0.1 and 4 in
    the box and [needed = 1], the records carry 0.1 and 1 - 0.1 = 0.9 while
    the second item goes from 4 to 4 - 0.9 = 3.1, and the doubles written
    0.9 and 3.1 are not 0.9 apart from 4: the amounts used and the decrease
    of the stock differ. *)
Lemma allocate_category_conserves_fails :
  let box_list := [Double.mkItem "milk" dairy 0.1; Double.mkItem "curd" dairy 4] in
  let a := Double.allocate_category box_list [] dairy 1 in
  ~ Double.sum_used (Double.used_details a)
    == (Double.total_servings box_list + Double.total_servings [])
       - (Double.total_servings (Double.box_after a)
          + Double.total_servings (Double.main_after a)).
Proof.
  cbv zeta. intros H. vm_compute in H. discriminate H.
Qed.

(** C9 (amended).  For every call of [allocate_category] every returned
    usage record has a strictly positive amount; and when [needed] and the
    servings of the lists are whole numbers within the range in which
    doubles subtract without rounding, the amounts of the returned records
    sum to the total decrease of [servings_available] over all the items of
    both lists. *)
Theorem allocate_category_conserves
    (box_list main_list : list InventoryItem) (cat : Category) (needed : Q) :
  let a := allocate_category box_list main_list cat needed in
  Forall (fun u => 0 < servings_used u) (used_details a)
  /\ (whole_stock (box_list ++ main_list) = true ->
      whole needed = true ->
      sum_used (used_details a)
      == (total_servings box_list + total_servings main_list)
         - (total_servings (box_after a) + total_servings (main_after a))).
Proof.
  destruct (scan box cat box_list needed) as [[box' used_box] nl] eqn:E.
  pose proof (scan_conserves _ _ _ _ _ _ _ E) as Hcb.
  pose proof (scan_records _ _ _ _ _ _ _ E) as Hrb.
  assert (Hpb : Forall (fun u => 0 < servings_used u) used_box).
  { eapply Forall_impl; [exact Hrb|]. simpl. intros v Hv. apply Hv. }
  destruct (allocate_category_cases box_list main_list cat needed _ _ _ E)
    as [(_ & ->) | (_ & main' & used_main & nl' & E' & ->)]; simpl.
  - rewrite app_nil_r. split; [exact Hpb | intros _ _; lra].
  - pose proof (scan_conserves _ _ _ _ _ _ _ E') as Hcm.
    pose proof (scan_records _ _ _ _ _ _ _ E') as Hrm.
    split.
    + apply Forall_app. split; [exact Hpb|].
      eapply Forall_impl; [exact Hrm|]. simpl. intros v Hv. apply Hv.
    + intros _ _. rewrite sum_used_app. lra.
Qed.

Lemma allocate_category_conserves_witness :
  let box_list := [mkItem "milk" dairy 1; mkItem "rice" cereal 7] in
  let main_list := [mkItem "curd" dairy 4] in
  let a := allocate_category box_list main_list dairy 3 in
  sum_used (used_details a)
  == (total_servings box_list + total_servings main_list)
     - (total_servings (box_after a) + total_servings (main_after a)).
Proof.
  exact (proj2 (allocate_category_conserves
                  [mkItem "milk" dairy 1; mkItem "rice" cereal 7]
                  [mkItem "curd" dairy 4] dairy 3) eq_refl eq_refl).
Defined.

(** ** [allocate_meal] *)

(** The accumulators of the loop only collect: running the loop from any
    [used] and [short_any] is running it from the empty ones and adding. *)
Lemma allocate_meal_loop_acc (meal_plan : list (Category * Q)) :
  forall box_list main_list used short_any,
  allocate_meal_loop meal_plan box_list main_list used short_any
  = let r := allocate_meal box_list main_list meal_plan in
    mkMealAllocation (meal_box_after r) (meal_main_after r)
      (used ++ used_items r) (short_any || shortage_any r).
Proof.
  unfold allocate_meal.
  induction meal_plan as [|[cat needed] rest IH]; intros box_list main_list used s;
    simpl.
  - rewrite app_nil_r, orb_false_r. reflexivity.
  - destruct (Qleb needed 0); [apply IH|].
    rewrite IH. rewrite (IH _ _ (used_details _)). simpl.
    rewrite app_assoc.
    destruct (is_short _), s; reflexivity.
Qed.

Lemma allocate_meal_app (before after : list (Category * Q))
    (box_list main_list : list InventoryItem) :
  allocate_meal box_list main_list (before ++ after)
  = let r1 := allocate_meal box_list main_list before in
    let r2 := allocate_meal (meal_box_after r1) (meal_main_after r1) after in
    mkMealAllocation (meal_box_after r2) (meal_main_after r2)
      (used_items r1 ++ used_items r2) (shortage_any r1 || shortage_any r2).
Proof.
  unfold allocate_meal at 1.
  assert (H : forall used s,
    allocate_meal_loop (before ++ after) box_list main_list used s
    = let r1 := allocate_meal_loop before box_list main_list used s in
      allocate_meal_loop after (meal_box_after r1) (meal_main_after r1)
        (used_items r1) (shortage_any r1)).
  { revert box_list main_list.
    induction before as [|[cat needed] rest IH]; intros box_list main_list used s;
      simpl; [reflexivity|].
    destruct (Qleb needed 0); apply IH. }
  rewrite H. simpl. fold (allocate_meal box_list main_list before).
  apply allocate_meal_loop_acc.
Qed.

Lemma allocate_meal_cons (cat : Category) (needed : Q)
    (rest : list (Category * Q)) (box_list main_list : list InventoryItem) :
  0 < needed ->
  allocate_meal box_list main_list ((cat, needed) :: rest)
  = let a := allocate_category box_list main_list cat needed in
    let r := allocate_meal (box_after a) (main_after a) rest in
    mkMealAllocation (meal_box_after r) (meal_main_after r)
      (used_details a ++ used_items r) (is_short a || shortage_any r).
Proof.
  intros Hpos. unfold allocate_meal at 1. simpl.
  destruct (Qleb_spec needed 0) as [Hle|_]; [lra|].
  rewrite allocate_meal_loop_acc. simpl.
  destruct (is_short _); reflexivity.
Qed.

Lemma allocate_meal_skip (cat : Category) (needed : Q)
    (rest : list (Category * Q)) (box_list main_list : list InventoryItem) :
  needed <= 0 ->
  allocate_meal box_list main_list ((cat, needed) :: rest)
  = allocate_meal box_list main_list rest.
Proof.
  intros Hle. unfold allocate_meal. simpl.
  destruct (Qleb_spec needed 0); [reflexivity | contradiction].
Qed.

(** C5.  [allocate_meal] processes every category of the requirement mapping
    with [needed > 0], whatever happened to the categories before it: the
    category is allocated on the lists as the earlier categories left them,
    the categories after it are allocated on the lists as it leaves them, the
    records of all of them are in the returned list in that order, and the
    lists returned are the ones the last allocation left, with nothing
    undone.  The flag is set when any of them was short. *)
Theorem allocate_meal_no_early_exit
    (before after : list (Category * Q)) (cat : Category) (needed : Q)
    (box_list main_list : list InventoryItem) :
  0 < needed ->
  let r1 := allocate_meal box_list main_list before in
  let a := allocate_category (meal_box_after r1) (meal_main_after r1) cat needed in
  let r2 := allocate_meal (box_after a) (main_after a) after in
  allocate_meal box_list main_list (before ++ (cat, needed) :: after)
  = mkMealAllocation (meal_box_after r2) (meal_main_after r2)
      (used_items r1 ++ used_details a ++ used_items r2)
      (shortage_any r1 || is_short a || shortage_any r2).
Proof.
  intros Hpos. rewrite allocate_meal_app. cbv zeta.
  rewrite allocate_meal_cons by exact Hpos. simpl.
  rewrite orb_assoc. reflexivity.
Qed.

(** A lunch from a box without fruit or vegetables: the first category is
    short, the cereal, protein and oil after it are still taken. *)
Lemma allocate_meal_no_early_exit_witness :
  let box_list := [mkItem "rice" cereal 3; mkItem "dal" protein 1;
                   mkItem "ghee" oil 1] in
  let r := allocate_meal box_list [] (MEALS LunchPlan) in
  is_short (allocate_category box_list [] fruit_veg 2) = true
  /\ shortage_any r = true
  /\ List.map used_item_name (used_items r) = ["rice"; "dal"; "ghee"]
  /\ List.map servings_available (meal_box_after r) = [3 - 1; 1 - 1; 1 - 1].
Proof.
  pose proof (allocate_meal_no_early_exit [(fruit_veg, 2)] [(dairy, 0); (protein, 1); (oil, 1)]
                cereal 1
                [mkItem "rice" cereal 3; mkItem "dal" protein 1; mkItem "ghee" oil 1]
                [] ltac:(lra)) as H.
  simpl in H. cbv zeta. unfold MEALS. rewrite H. repeat split.
Defined.

(** ** The day and month loops *)

Lemma days_loop_app (before after : list Z) (st : MonthState) :
  days_loop (before ++ after) st = days_loop after (days_loop before st).
Proof. unfold days_loop. apply fold_left_app. Qed.

(** [shortage_for_day] is set exactly when some meal of the day, reached
    without a shortage before it, reports one. *)
Lemma meals_loop_short_iff (keys : list MealKey) :
  forall box_list main_list day_meals,
  snd (meals_loop keys box_list main_list day_meals) = true
  <-> exists pre meal_key post b m dm,
        keys = pre ++ meal_key :: post
        /\ meals_loop pre box_list main_list day_meals = (b, m, dm, false)
        /\ shortage_any (allocate_meal b m (MEALS meal_key)) = true.
Proof.
  induction keys as [|k rest IH]; intros box_list main_list day_meals; simpl.
  - split; [discriminate|].
    intros (pre & mk & post & _ & _ & _ & Hk & _). destruct pre; discriminate.
  - destruct (shortage_any (allocate_meal box_list main_list (MEALS k))) eqn:Hs.
    + split; [intros _ | reflexivity].
      exists [], k, rest, box_list, main_list, day_meals. auto.
    + rewrite IH. split.
      * intros (pre & mk & post & b & m & dm & -> & Hrun & Hshort).
        exists (k :: pre), mk, post, b, m, dm. simpl. rewrite Hs. auto.
      * intros (pre & mk & post & b & m & dm & Hk & Hrun & Hshort).
        destruct pre as [|k' pre]; simpl in *.
        -- injection Hk as <- <-. injection Hrun as <- <- _. congruence.
        -- injection Hk as <- ->. rewrite Hs in Hrun.
           exists pre, mk, post, b, m, dm. auto.
Qed.

(** The step of a day on which a meal was short. *)
Lemma day_step_short (st : MonthState) (day_num : Z) :
  shortage_for_day (st_box_list st) (st_main_list st) = true ->
  day_step st day_num
  = mkMonthState (st_box_list st) (st_main_list st)
      (st_day_plans st ++ [mkDayPlan day_num [] None None])
      (st_day_shortages st ++
         [mkDayShortage day_num
            ["Not enough box+main inventory to fulfill 5-4-3-2-1 plan"]]).
Proof.
  unfold shortage_for_day, day_step.
  destruct (meals_loop MEAL_ORDER (st_box_list st) (st_main_list st) [])
    as [[[b m] dm] s].
  cbn [snd]. intros ->. reflexivity.
Qed.

(** C4.  For every day the month loop processes, if a meal of that day
    reports a shortage then after the day both item lists are the lists the
    day started from (the snapshot), the plan emitted for the day has an
    empty [meals] list and neither [day_box_usage] nor [day_main_usage], and
    the following days run from those lists. *)
Theorem shortage_day_rolls_back (before after : list Z) (day_num : Z)
    (st0 : MonthState) :
  let st := days_loop before st0 in
  shortage_for_day (st_box_list st) (st_main_list st) = true ->
  let st' := days_loop (before ++ [day_num]) st0 in
  st_box_list st' = st_box_list st
  /\ st_main_list st' = st_main_list st
  /\ st_day_plans st' = st_day_plans st ++ [mkDayPlan day_num [] None None]
  /\ days_loop (before ++ day_num :: after) st0 = days_loop after st'.
Proof.
  intros st Hshort st'. subst st'.
  replace (before ++ day_num :: after) with ((before ++ [day_num]) ++ after)
    by (rewrite <- app_assoc; reflexivity).
  rewrite (days_loop_app (before ++ [day_num]) after).
  rewrite (days_loop_app before [day_num]). fold st.
  change (days_loop [day_num] st) with (day_step st day_num).
  rewrite (day_step_short st day_num Hshort).
  cbn [st_box_list st_main_list st_day_plans]. auto.
Qed.

(** A first day on which breakfast is served and lunch is short: the meals
    loop has taken servings from the box, the day step hands back the lists
    of the morning. *)
Lemma shortage_day_rolls_back_witness :
  let box_list := [mkItem "apple" fruit_veg 1; mkItem "rice" cereal 1;
                   mkItem "milk" dairy 1] in
  let st0 := mkMonthState box_list [] [] [] in
  fst (fst (fst (meals_loop MEAL_ORDER box_list [] []))) <> box_list
  /\ st_box_list (days_loop [1%Z] st0) = box_list
  /\ st_day_plans (days_loop [1%Z] st0) = [mkDayPlan 1 [] None None].
Proof.
  pose proof (shortage_day_rolls_back [] [] 1%Z
                (mkMonthState [mkItem "apple" fruit_veg 1; mkItem "rice" cereal 1;
                               mkItem "milk" dairy 1] [] [] [])
                eq_refl) as (H1 & _ & H3 & _).
  split; [|split; [exact H1 | exact H3]].
  vm_compute. discriminate.
Defined.

(** ** The cycle month *)

(** C8.  [get_cycle_month] computes [((month - 1) mod 3) + 1] for every
    integer month: its result is between 1 and 3 and [month - 1] is a
    multiple of 3 plus the result less one.  Month 4 gives cycle month 1, and
    months 4 and 7 read the same box sheet. *)
Theorem get_cycle_month_spec (month : Z) :
  (get_cycle_month month = (month - 1) mod 3 + 1
   /\ 1 <= get_cycle_month month <= 3
   /\ exists k, month - 1 = 3 * k + (get_cycle_month month - 1))%Z
  /\ get_cycle_month 4 = 1%Z
  /\ get_cycle_month 7 = get_cycle_month 4
  /\ sheet_name_of (get_cycle_month 4) = "Senior Box First Month"
  /\ forall ref_map file,
       load_senior_box_data_and_list (get_cycle_month 7) ref_map file
       = load_senior_box_data_and_list (get_cycle_month 4) ref_map file.
Proof.
  split; [|repeat split].
  unfold get_cycle_month.
  pose proof (Z.mod_pos_bound (month - 1) 3 ltac:(lia)) as Hb.
  split; [reflexivity|]. split; [lia|].
  exists ((month - 1) / 3)%Z.
  pose proof (Z.div_mod (month - 1) 3 ltac:(lia)). lia.
Qed.

(** ** The reference map *)

Lemma build_ref_map_snoc (rows : list ReferenceRow) (row : ReferenceRow) :
  build_ref_map (rows ++ [row])
  = <[reference_key row := reference_entry row]> (build_ref_map rows).
Proof. unfold build_ref_map. rewrite fold_left_app. reflexivity. Qed.

(** An entry of the map is the entry of the last row with its key. *)
Lemma build_ref_map_lookup (rows : list ReferenceRow) (name : string)
    (entry : ReferenceEntry) :
  build_ref_map rows !! name = Some entry
  <-> exists before row after,
        rows = before ++ row :: after
        /\ reference_key row = name
        /\ Forall (fun r => reference_key r <> name) after
        /\ entry = reference_entry row.
Proof.
  induction rows as [|last rows IH] using rev_ind.
  - split.
    + unfold build_ref_map. simpl. rewrite lookup_empty. discriminate.
    + intros (before & row & after & H & _). destruct before; discriminate.
  - rewrite build_ref_map_snoc. split.
    + intros Hl. destruct (decide (reference_key last = name)) as [Heq|Hne].
      * rewrite Heq, lookup_insert_eq in Hl. injection Hl as <-.
        exists rows, last, []. auto.
      * rewrite lookup_insert_ne in Hl by exact Hne.
        apply IH in Hl as (before & row & after & -> & Hk & Hafter & ->).
        exists before, row, (after ++ [last]).
        rewrite <- app_assoc. simpl. repeat split; auto.
        apply Forall_app. split; [exact Hafter|]. constructor; auto.
    + intros (before & row & after & Hrows & Hk & Hafter & ->).
      destruct after as [|x after _] using rev_ind.
      * apply app_inj_tail in Hrows as [-> ->].
        rewrite Hk. apply lookup_insert_eq.
      * rewrite app_comm_cons, app_assoc in Hrows.
        apply app_inj_tail in Hrows as [-> ->].
        apply Forall_app in Hafter as [Hafter Hx].
        inversion Hx as [|? ? Hne _]; subst.
        rewrite lookup_insert_ne by exact Hne.
        apply IH. exists before, row, after. auto.
Qed.

(** C6, as the spec states it, fails on a row with a negative
    [servings_per_unit]: the number is kept as it is. *)
Lemma load_food_reference_negative_servings :
  exists ref_map entry,
    load_food_reference
      (Loaded (mkFrame ["item_name"; "item_category"; "servings_per_unit"]
                 [mkReferenceRow "Ghee" "Oil" (Numeric (-2))]))
    = Return ref_map
    /\ ref_map !! "ghee" = Some entry
    /\ ~ 0 <= servings_per_unit entry.
Proof.
  eexists _, (mkReferenceEntry "oil" (-2)). split; [reflexivity|].
  split; [reflexivity|]. simpl. lra.
Qed.

(** C6 (amended).  Every entry of the reference map built by
    [load_food_reference] carries the [servings_per_unit] of the row it was
    written from: the number of the row when it is one, whatever its sign
    (hence [>= 0] when that number is), and 1 when the value is missing or
    not a number.  The entry under a name is the one of the last row whose
    lowercased trimmed item name is that name. *)
Theorem load_food_reference_entries (file : Read ReferenceRow)
    (ref_map : gmap string ReferenceEntry) :
  load_food_reference file = Return ref_map ->
  exists df,
    file = Loaded df
    /\ forall name entry,
         ref_map !! name = Some entry
         <-> exists before row after,
               frame_rows df = before ++ row :: after
               /\ lower (strip (ref_item_name row)) = name
               /\ Forall (fun r => lower (strip (ref_item_name r)) <> name) after
               /\ raw_category entry = lower (strip (ref_item_category row))
               /\ match ref_servings_per_unit row with
                  | Numeric q => servings_per_unit entry = q
                  | NonNumeric | Missing => servings_per_unit entry = 1
                  end.
Proof.
  unfold load_food_reference. destruct file as [df| |]; try discriminate.
  destruct (missing_column ["item_name"; "item_category"; "servings_per_unit"]
              (columns df)); [discriminate|].
  intros [= <-]. exists df. split; [reflexivity|].
  intros name entry. rewrite build_ref_map_lookup.
  split; intros (before & row & after & Hrows & Hk & Hafter & Hentry);
    exists before, row, after; repeat split; auto.
  - subst entry. reflexivity.
  - subst entry. simpl. destruct (ref_servings_per_unit row); reflexivity.
  - destruct Hentry as [Hcat Hsu]. destruct entry as [rc su]. simpl in *.
    unfold reference_entry. subst rc. f_equal.
    destruct (ref_servings_per_unit row); simpl; exact Hsu.
Qed.

Lemma load_food_reference_entries_witness :
  let rows := [mkReferenceRow "Rice" "Grains" (Numeric 2);
               mkReferenceRow " rice " "grains" NonNumeric] in
  exists ref_map,
    load_food_reference
      (Loaded (mkFrame ["item_name"; "item_category"; "servings_per_unit"] rows))
    = Return ref_map
    /\ ref_map !! "rice" = Some (mkReferenceEntry "grains" 1).
Proof.
  eexists. split; [reflexivity|].
  destruct (load_food_reference_entries _ _
              (eq_refl : load_food_reference
                 (Loaded (mkFrame ["item_name"; "item_category"; "servings_per_unit"]
                    [mkReferenceRow "Rice" "Grains" (Numeric 2);
                     mkReferenceRow " rice " "grains" NonNumeric]))
               = Return _)) as (df & Hdf & H).
  injection Hdf as <-.
  apply H. exists [mkReferenceRow "Rice" "Grains" (Numeric 2)],
             (mkReferenceRow " rice " "grains" NonNumeric), [].
  repeat split; constructor.
Defined.

(** ** The inventory builders *)

(** The row loop keeps, in order, the items of the rows it does not skip. *)
Lemma inventory_loop_omap (ref_map : gmap string ReferenceEntry)
    (rows : list InventoryRow) :
  forall items,
  inventory_loop ref_map rows items
  = items ++ omap (inventory_item_of ref_map) rows.
Proof.
  induction rows as [|row rest IH]; intros items; simpl.
  - rewrite app_nil_r. reflexivity.
  - destruct (inventory_item_of ref_map row) as [item|]; rewrite IH.
    + rewrite <- app_assoc. reflexivity.
    + reflexivity.
Qed.

Lemma skipped_iff (ref_map : gmap string ReferenceEntry) (row : InventoryRow) :
  skipped ref_map row <-> inventory_item_of ref_map row = None.
Proof.
  unfold skipped, inventory_item_of.
  destruct (ref_map !! lower (strip (row_item_name row))) as [entry|].
  - destruct (CATEGORY_MAP !! raw_category entry) as [c|] eqn:Hc.
    + split; [|discriminate].
      intros [H | (e & [= <-] & H)]; congruence.
    + split; [reflexivity|]. intros _. right. exists entry. auto.
  - split; [reflexivity|]. intros _. left. reflexivity.
Qed.

(** Whether a row is skipped depends on its item name only, and an item
    carries the item name of its row. *)
Lemma inventory_item_of_name (ref_map : gmap string ReferenceEntry)
    (row : InventoryRow) (item : InventoryItem) :
  inventory_item_of ref_map row = Some item ->
  item_name item = row_item_name row
  /\ forall row', row_item_name row' = row_item_name row ->
                  inventory_item_of ref_map row' <> None.
Proof.
  unfold inventory_item_of. intros H. split.
  - destruct (ref_map !! lower (strip (row_item_name row))) as [entry|];
      [|discriminate].
    destruct (CATEGORY_MAP !! raw_category entry); [|discriminate].
    injection H as <-. reflexivity.
  - intros row' ->.
    destruct (ref_map !! lower (strip (row_item_name row))) as [entry|];
      [|discriminate].
    destruct (CATEGORY_MAP !! raw_category entry); discriminate.
Qed.

Lemma inventory_loop_names (ref_map : gmap string ReferenceEntry)
    (rows : list InventoryRow) (row : InventoryRow) :
  inventory_item_of ref_map row = None ->
  Forall (fun item => item_name item <> row_item_name row)
    (inventory_loop ref_map rows []).
Proof.
  intros Hskip. rewrite inventory_loop_omap. simpl.
  induction rows as [|r rest IH]; simpl; [constructor|].
  destruct (inventory_item_of ref_map r) as [item|] eqn:E; [|exact IH].
  constructor; [|exact IH].
  destruct (inventory_item_of_name _ _ _ E) as [Hname Hsame].
  intros Heq. apply (Hsame row); congruence.
Qed.

(** ** Item names through a run *)

(** Allocation only writes [servings_available], and every record and every
    summary line takes its item name from an item of the lists: a property of
    the item names of the two lists holds of every name in the plan. *)
Section Names.
Variable P : string -> Prop.

Lemma allocate_category_keeps_names (box_list main_list : list InventoryItem)
    (cat : Category) (needed : Q) :
  Forall (fun item => P (item_name item)) box_list ->
  Forall (fun item => P (item_name item)) main_list ->
  let a := allocate_category box_list main_list cat needed in
  Forall (fun item => P (item_name item)) (box_after a)
  /\ Forall (fun item => P (item_name item)) (main_after a)
  /\ Forall (fun u => P (used_item_name u)) (used_details a).
Proof.
  intros Hb Hm.
  destruct (allocate_category_names box_list main_list cat needed)
    as (Hnb & Hnm & Hu).
  apply List.Forall_map in Hb, Hm. cbv zeta.
  split; [|split].
  - apply List.Forall_map. rewrite Hnb. exact Hb.
  - apply List.Forall_map. rewrite Hnm. exact Hm.
  - eapply Forall_impl; [exact Hu|]. simpl. intros u Hin.
    assert (Hall : Forall P (List.map item_name box_list
                             ++ List.map item_name main_list))
      by (apply Forall_app; auto).
    rewrite List.Forall_forall in Hall. apply Hall, Hin.
Qed.

Lemma allocate_meal_keeps_names (meal_plan : list (Category * Q)) :
  forall box_list main_list,
  Forall (fun item => P (item_name item)) box_list ->
  Forall (fun item => P (item_name item)) main_list ->
  let r := allocate_meal box_list main_list meal_plan in
  Forall (fun item => P (item_name item)) (meal_box_after r)
  /\ Forall (fun item => P (item_name item)) (meal_main_after r)
  /\ Forall (fun u => P (used_item_name u)) (used_items r).
Proof.
  induction meal_plan as [|[cat needed] rest IH]; intros box_list main_list Hb Hm.
  - simpl. auto.
  - destruct (Qltb_spec 0 needed) as [Hpos|Hle].
    + rewrite allocate_meal_cons by exact Hpos. cbv zeta. simpl.
      destruct (allocate_category_keeps_names box_list main_list cat needed Hb Hm)
        as (Hb' & Hm' & Hu).
      destruct (IH _ _ Hb' Hm') as (Hb2 & Hm2 & Hu2).
      repeat split; auto. apply Forall_app. auto.
    + rewrite allocate_meal_skip by lra. apply IH; assumption.
Qed.

Lemma meals_loop_keeps_names (keys : list MealKey) :
  forall box_list main_list day_meals,
  Forall (fun item => P (item_name item)) box_list ->
  Forall (fun item => P (item_name item)) main_list ->
  Forall (fun m => Forall (fun u => P (used_item_name u)) (meal_used_items m))
    day_meals ->
  forall b m dm s, meals_loop keys box_list main_list day_meals = (b, m, dm, s) ->
  Forall (fun item => P (item_name item)) b
  /\ Forall (fun item => P (item_name item)) m
  /\ Forall (fun m => Forall (fun u => P (used_item_name u)) (meal_used_items m))
       dm.
Proof.
  induction keys as [|k rest IH]; intros box_list main_list day_meals Hb Hm Hd
    b m dm s; simpl.
  - intros [= <- <- <- <-]. auto.
  - destruct (allocate_meal_keeps_names (MEALS k) box_list main_list Hb Hm)
      as (Hb' & Hm' & Hu).
    assert (Hd' : Forall (fun m => Forall (fun u => P (used_item_name u))
                                     (meal_used_items m))
                    (day_meals ++
                       [mkMealResult (meal_time_of k) (MEALS k)
                          (used_items (allocate_meal box_list main_list (MEALS k)))])).
    { apply Forall_app. split; [exact Hd|]. constructor; [exact Hu|constructor]. }
    destruct (shortage_any (allocate_meal box_list main_list (MEALS k))).
    + intros [= <- <- <- <-]. auto.
    + intros E. eapply IH; [exact Hb'|exact Hm'|exact Hd'|exact E].
Qed.

Lemma usage_add_keeps_names (key : string * Category) (v : Q)
    (usage_map : list (string * Category * Q)) :
  P (fst key) ->
  Forall (fun e => P (fst (fst e))) usage_map ->
  Forall (fun e => P (fst (fst e))) (usage_add key v usage_map).
Proof.
  intros Hk. induction 1 as [|[k t] r Hkt Hr IH]; simpl.
  - repeat constructor. exact Hk.
  - destruct (bool_decide (k = key)); constructor; auto.
Qed.

Lemma map_to_list_keeps_names (usage_map : list (string * Category * Q)) :
  Forall (fun e => P (fst (fst e))) usage_map ->
  Forall (fun t => P (total_item_name t)) (map_to_list usage_map).
Proof.
  induction 1 as [|[[n c] t] r Hn _ IH]; simpl; constructor; auto.
Qed.

Lemma summarize_day_usage_keeps_names (day_meals : list MealResult) :
  Forall (fun m => Forall (fun u => P (used_item_name u)) (meal_used_items m))
    day_meals ->
  Forall (fun t => P (total_item_name t)) (fst (summarize_day_usage day_meals))
  /\ Forall (fun t => P (total_item_name t)) (snd (summarize_day_usage day_meals)).
Proof.
  intros Hd. unfold summarize_day_usage. simpl.
  assert (Hmaps : forall maps,
    Forall (fun e => P (fst (fst e))) (fst maps) ->
    Forall (fun e => P (fst (fst e))) (snd maps) ->
    let maps' :=
      fold_left
        (fun maps meal => fold_left summarize_step (meal_used_items meal) maps)
        day_meals maps in
    Forall (fun e => P (fst (fst e))) (fst maps')
    /\ Forall (fun e => P (fst (fst e))) (snd maps')).
  { induction Hd as [|meal rest Hmeal _ IH]; intros maps H1 H2; simpl; [auto|].
    apply IH; clear IH.
    - revert maps H1 H2.
      induction Hmeal as [|u us Hu _ IHu]; intros maps H1 H2; simpl; [auto|].
      apply IHu; unfold summarize_step; destruct (from u); simpl; auto;
        apply usage_add_keeps_names; auto.
    - revert maps H1 H2.
      induction Hmeal as [|u us Hu _ IHu]; intros maps H1 H2; simpl; [auto|].
      apply IHu; unfold summarize_step; destruct (from u); simpl; auto;
        apply usage_add_keeps_names; auto. }
  destruct (Hmaps ([], []) ltac:(constructor) ltac:(constructor)) as [H1 H2].
  split; apply map_to_list_keeps_names; assumption.
Qed.
End Names.

Lemma day_step_keeps_names (P : string -> Prop) (st : MonthState) (day_num : Z) :
  Forall (fun item => P (item_name item)) (st_box_list st) ->
  Forall (fun item => P (item_name item)) (st_main_list st) ->
  (forall d name, In d (st_day_plans st) -> day_mentions name d -> P name) ->
  let st' := day_step st day_num in
  Forall (fun item => P (item_name item)) (st_box_list st')
  /\ Forall (fun item => P (item_name item)) (st_main_list st')
  /\ (forall d name, In d (st_day_plans st') -> day_mentions name d -> P name).
Proof.
  intros Hb Hm Hd. unfold day_step.
  destruct (meals_loop MEAL_ORDER (st_box_list st) (st_main_list st) [])
    as [[[b m] dm] s] eqn:E.
  destruct (meals_loop_keeps_names P _ _ _ _ Hb Hm ltac:(constructor) _ _ _ _ E)
    as (Hb' & Hm' & Hdm).
  clear E. destruct s.
  - cbn [st_box_list st_main_list st_day_plans]. repeat split; auto.
    intros d name Hin Hment. apply in_app_or in Hin as [Hin|[<-|[]]].
    + eapply Hd; eauto.
    + destruct Hment as [(mr & u & [] & _) | (l & t & [H|H] & _)]; discriminate.
  - destruct (summarize_day_usage_keeps_names P dm Hdm) as [Hbu Hmu].
    destruct (summarize_day_usage dm) as [bu mu]. simpl in *.
    repeat split; auto.
    intros d name Hin Hment. apply in_app_or in Hin as [Hin|[<-|[]]].
    + eapply Hd; eauto.
    + destruct Hment as [(mr & u & Hmr & Hu & <-) | (l & t & Hl & Ht & <-)];
        simpl in *.
      * rewrite List.Forall_forall in Hdm. specialize (Hdm mr Hmr).
        rewrite List.Forall_forall in Hdm. apply Hdm, Hu.
      * destruct Hl as [[= <-]|[= <-]].
        -- rewrite List.Forall_forall in Hbu. apply Hbu, Ht.
        -- rewrite List.Forall_forall in Hmu. apply Hmu, Ht.
Qed.

Lemma days_loop_keeps_names (P : string -> Prop) (days : list Z) :
  forall st,
  Forall (fun item => P (item_name item)) (st_box_list st) ->
  Forall (fun item => P (item_name item)) (st_main_list st) ->
  (forall d name, In d (st_day_plans st) -> day_mentions name d -> P name) ->
  forall d name, In d (st_day_plans (days_loop days st)) ->
                 day_mentions name d -> P name.
Proof.
  induction days as [|day_num rest IH]; intros st Hb Hm Hd; simpl; [exact Hd|].
  destruct (day_step_keeps_names P st day_num Hb Hm Hd) as (Hb' & Hm' & Hd').
  apply IH; assumption.
Qed.

(** Every day adds one entry to [day_plans]. *)
Lemma days_loop_length (days : list Z) :
  forall st,
  length (st_day_plans (days_loop days st))
  = (length (st_day_plans st) + length days)%nat.
Proof.
  induction days as [|day_num rest IH]; intros st; simpl; [lia|].
  unfold days_loop in IH. rewrite IH. unfold day_step.
  destruct (meals_loop MEAL_ORDER (st_box_list st) (st_main_list st) [])
    as [[[b m] dm] s].
  destruct s; [|destruct (summarize_day_usage dm)]; simpl;
    rewrite length_app; simpl; lia.
Qed.

(** C7.  An inventory row whose lowercased trimmed item name is not in the
    reference map, or whose raw category is not in the category map, is
    passed over by the row loop of both builders: it yields no item, the
    builders return, no item of either list carries its name, and the month
    plan is produced, with its thirty days, without a usage record or a
    summary line of that name. *)
Theorem unknown_rows_are_skipped (month : Z) (data : Workbooks)
    (ref_map : gmap string ReferenceEntry)
    (box_df main_df : DataFrame InventoryRow) (row : InventoryRow) :
  load_food_reference (food_category_xlsx data) = Return ref_map ->
  senior_box_xlsx data (sheet_name_of (get_cycle_month month)) = Loaded box_df ->
  "item_name" ∈ columns box_df -> "quantity" ∈ columns box_df ->
  excel_file_xlsx data = Loaded main_df ->
  "item_name" ∈ columns main_df -> "quantity_in_stock" ∈ columns main_df ->
  skipped ref_map row ->
  (forall before after items,
     inventory_loop ref_map (before ++ row :: after) items
     = inventory_loop ref_map (before ++ after) items)
  /\ exists box_list main_list plan,
       load_senior_box_data_and_list (get_cycle_month month) ref_map
         (senior_box_xlsx data) = Return (frame_rows box_df, box_list)
       /\ load_main_inventory_items ref_map (excel_file_xlsx data)
          = Return main_list
       /\ Forall (fun item => item_name item <> row_item_name row)
            (box_list ++ main_list)
       /\ generate_monthly_plan month data = Return plan
       /\ length (final_daily_plan plan) = 30%nat
       /\ ~ plan_mentions (row_item_name row) plan.
Proof.
  intros Href Hbox Hb1 Hb2 Hmain Hm1 Hm2 Hskip.
  apply skipped_iff in Hskip.
  split.
  { intros before after items. rewrite !inventory_loop_omap, !omap_app.
    simpl. rewrite Hskip. reflexivity. }
  pose proof (inventory_loop_names ref_map (frame_rows box_df) row Hskip) as Hnb.
  pose proof (inventory_loop_names ref_map (frame_rows main_df) row Hskip) as Hnm.
  assert (Ebox : load_senior_box_data_and_list (get_cycle_month month) ref_map
                   (senior_box_xlsx data)
                 = Return (frame_rows box_df,
                           inventory_loop ref_map (frame_rows box_df) [])).
  { unfold load_senior_box_data_and_list. rewrite Hbox.
    rewrite !bool_decide_eq_true_2 by assumption. reflexivity. }
  assert (Emain : load_main_inventory_items ref_map (excel_file_xlsx data)
                  = Return (inventory_loop ref_map (frame_rows main_df) [])).
  { unfold load_main_inventory_items. rewrite Hmain. simpl.
    rewrite !bool_decide_eq_true_2 by assumption. reflexivity. }
  eexists _, _, _. split; [exact Ebox|]. split; [exact Emain|].
  split; [apply Forall_app; split; assumption|].
  unfold generate_monthly_plan. rewrite Href, Ebox, Emain.
  split; [reflexivity|]. unfold plan_mentions. cbn [final_daily_plan]. split.
  - rewrite days_loop_length. reflexivity.
  - intros (d & Hin & Hment).
    refine (days_loop_keeps_names (fun n => n <> row_item_name row) day_range
              (mkMonthState _ _ [] []) Hnb Hnm _ d _ Hin Hment eq_refl).
    cbn [st_day_plans]. intros ? ? [].
Qed.

(** A box sheet with a row that is not in the reference sheet, and an
    inventory sheet with a row whose raw category has no standard key. *)
Lemma unknown_rows_are_skipped_witness :
  let reference :=
    mkFrame ["item_name"; "item_category"; "servings_per_unit"]
      [mkReferenceRow "Apple" "Seasonal & Local Fruits/Vegetables" (Numeric 2);
       mkReferenceRow "Candy" "Sweets" (Numeric 1)] in
  let box_sheet :=
    mkFrame ["item_name"; "quantity"]
      [mkInventoryRow "Apple" (Numeric 5); mkInventoryRow "Mango" (Numeric 3)] in
  let inventory :=
    mkFrame ["item_name"; "quantity_in_stock"] [mkInventoryRow "Candy" (Numeric 9)] in
  let data :=
    mkWorkbooks (Loaded reference) (fun _ => Loaded box_sheet) (Loaded inventory) in
  exists plan,
    generate_monthly_plan 4 data = Return plan
    /\ length (final_daily_plan plan) = 30%nat
    /\ ~ plan_mentions "Candy" plan.
Proof.
  intros reference box_sheet inventory data.
  destruct (unknown_rows_are_skipped 4 data (build_ref_map (frame_rows reference))
              box_sheet inventory (mkInventoryRow "Candy" (Numeric 9)))
    as (_ & box_list & main_list & plan & _ & _ & _ & Hplan & Hlen & Hno).
  - reflexivity.
  - reflexivity.
  - vm_compute. repeat constructor.
  - vm_compute. repeat constructor.
  - reflexivity.
  - vm_compute. repeat constructor.
  - vm_compute. repeat constructor.
  - right. exists (mkReferenceEntry "sweets" 1). split; vm_compute; reflexivity.
  - exists plan. auto.
Defined.


(** * Further properties of the allocator *)

Lemma total_positive_app (cat : Category) (l1 l2 : list InventoryItem) :
  total_positive cat (l1 ++ l2) == total_positive cat l1 + total_positive cat l2.
Proof.
  induction l1 as [|item rest IH]; simpl; [lra|]. rewrite IH. lra.
Qed.

Lemma total_positive_perm (cat : Category) (l1 l2 : list InventoryItem) :
  Permutation l1 l2 -> total_positive cat l1 == total_positive cat l2.
Proof.
  induction 1 as [|x l l' _ IH|x y l|l l' l'' _ IH1 _ IH2]; simpl; lra.
Qed.

Lemma total_positive_exhaust (cat : Category) (items : list InventoryItem) :
  total_positive cat (exhaust cat items) == 0.
Proof.
  induction items as [|item rest IH]; simpl; [lra|].
  unfold has_servings at 2.
  destruct (bool_decide_reflect (category item = cat)) as [Hc|Hc]; simpl.
  - destruct (Qltb_spec 0 (servings_available item)) as [Ha|Ha]; simpl.
    + unfold has_servings. simpl.
      destruct (Qltb_spec 0 0); [lra|]. rewrite andb_false_r. lra.
    + unfold has_servings.
      destruct (Qltb_spec 0 (servings_available item)); [lra|].
      rewrite andb_false_r. lra.
  - unfold has_servings. rewrite (bool_decide_eq_false_2 _ Hc). simpl. lra.
Qed.

(** The outcome of a call that asks for something: the need is at most the
    positive servings of the category and is met in full, or it exceeds them
    and they are all taken. *)
Lemma allocate_category_outcome
    (box_list main_list : list InventoryItem) (cat : Category) (needed : Q) :
  0 < needed ->
  let a := allocate_category box_list main_list cat needed in
  let total := total_positive cat box_list + total_positive cat main_list in
  (needed <= total /\ shortfall a = 0 /\ is_short a = false
   /\ sum_used (used_details a) == needed)
  \/ (total < needed /\ shortfall a == needed - total /\ is_short a = true
      /\ sum_used (used_details a) == total
      /\ box_after a = exhaust cat box_list
      /\ main_after a = exhaust cat main_list).
Proof.
  intros Hpos.
  pose proof (total_positive_nonneg cat box_list) as Hb.
  pose proof (total_positive_nonneg cat main_list) as Hm.
  destruct (scan box cat box_list needed) as [[box' used_box] nl] eqn:E.
  destruct (allocate_category_cases box_list main_list cat needed _ _ _ E)
    as [(Hnl & ->) | (Hnl & main' & used_main & nl' & E' & ->)]; simpl;
    destruct (scan_needed _ _ _ _ Hpos _ _ _ E)
      as [(-> & Hs & Hle) | (Hl & Hn & Hs & ->)]; try lra.
  - left. rewrite app_nil_r. repeat split; auto; lra.
  - destruct (scan_needed _ _ _ _ Hnl _ _ _ E')
      as [(-> & Hs' & Hle') | (Hl' & Hn' & Hs' & ->)].
    + left. rewrite sum_used_app. repeat split; auto; lra.
    + right. rewrite sum_used_app. destruct (Qltb_spec 0 nl'); [|lra].
      repeat split; auto; lra.
Qed.

(** X1.  For whole amounts, whatever is asked, the amounts used and the
    shortfall add up to [needed]. *)
Theorem allocate_category_balance
    (box_list main_list : list InventoryItem) (cat : Category) (needed : Q) :
  whole_stock (box_list ++ main_list) = true ->
  whole needed = true ->
  let a := allocate_category box_list main_list cat needed in
  sum_used (used_details a) + shortfall a == needed.
Proof.
  intros _ _.
  destruct (Qltb_spec 0 needed) as [Hpos|Hle].
  - destruct (allocate_category_outcome box_list main_list cat needed Hpos)
      as [(_ & Hs & _ & Hu) | (_ & Hs & _ & Hu & _)]; cbv zeta.
    + rewrite Hs. lra.
    + lra.
  - cbv zeta. rewrite allocate_category_idle by lra. unfold sum_used. simpl. lra.
Qed.

Lemma allocate_category_balance_witness :
  let a := allocate_category [mkItem "milk" dairy 1] [mkItem "curd" dairy 2]
             dairy 5 in
  sum_used (used_details a) + shortfall a == 5.
Proof.
  apply (allocate_category_balance [mkItem "milk" dairy 1]
           [mkItem "curd" dairy 2] dairy 5); reflexivity.
Defined.

(** X2.  For whole amounts, the call is short exactly when [needed] exceeds
    the positive servings of the category in the two lists; when it is not
    short and something was asked, the shortfall is zero. *)
Theorem allocate_category_short_iff
    (box_list main_list : list InventoryItem) (cat : Category) (needed : Q) :
  whole_stock (box_list ++ main_list) = true ->
  whole needed = true ->
  let a := allocate_category box_list main_list cat needed in
  (is_short a = true
   <-> total_positive cat box_list + total_positive cat main_list < needed)
  /\ (0 < needed -> is_short a = false -> shortfall a = 0).
Proof.
  intros _ _.
  pose proof (total_positive_nonneg cat box_list) as Hb.
  pose proof (total_positive_nonneg cat main_list) as Hm.
  destruct (Qltb_spec 0 needed) as [Hpos|Hle].
  - destruct (allocate_category_outcome box_list main_list cat needed Hpos)
      as [(Hle & Hs & Hf & _) | (Hlt & _ & Hf & _)]; cbv zeta; rewrite Hf.
    + split; [split; [discriminate | lra] | auto].
    + split; [split; auto | discriminate].
  - cbv zeta. rewrite allocate_category_idle by lra. simpl.
    split; [split; [discriminate | lra] | lra].
Qed.

Lemma allocate_category_short_iff_witness :
  let box_list := [mkItem "milk" dairy 1] in
  let main_list := [mkItem "curd" dairy 2] in
  (is_short (allocate_category box_list main_list dairy 5) = true
   <-> total_positive dairy box_list + total_positive dairy main_list < 5).
Proof.
  exact (proj1 (allocate_category_short_iff [mkItem "milk" dairy 1]
                  [mkItem "curd" dairy 2] dairy 5 eq_refl eq_refl)).
Defined.

(** X6.  For whole amounts, whether the need is met, and by how much it is
    missed, does not depend on the order of the items in the lists, nor on
    which of the two lists an item is in. *)
Theorem allocate_category_order_irrelevant
    (box1 main1 box2 main2 : list InventoryItem) (cat : Category) (needed : Q) :
  whole_stock (box1 ++ main1) = true ->
  whole needed = true ->
  Permutation (box1 ++ main1) (box2 ++ main2) ->
  let a1 := allocate_category box1 main1 cat needed in
  let a2 := allocate_category box2 main2 cat needed in
  is_short a1 = is_short a2
  /\ shortfall a1 == shortfall a2
  /\ sum_used (used_details a1) == sum_used (used_details a2).
Proof.
  intros _ _ Hperm. apply (total_positive_perm cat) in Hperm.
  rewrite !total_positive_app in Hperm.
  destruct (Qltb_spec 0 needed) as [Hpos|Hle].
  - destruct (allocate_category_outcome box1 main1 cat needed Hpos)
      as [(H1 & Hs1 & Hf1 & Hu1) | (H1 & Hs1 & Hf1 & Hu1 & _)];
    destruct (allocate_category_outcome box2 main2 cat needed Hpos)
      as [(H2 & Hs2 & Hf2 & Hu2) | (H2 & Hs2 & Hf2 & Hu2 & _)];
    cbv zeta; try lra; rewrite Hf1, Hf2; repeat split; try lra.
    rewrite Hs1, Hs2. lra.
  - cbv zeta. rewrite !allocate_category_idle by lra. simpl.
    repeat split; lra.
Qed.

Lemma allocate_category_order_irrelevant_witness :
  let a1 := allocate_category [mkItem "milk" dairy 1; mkItem "curd" dairy 2] []
              dairy 5 in
  let a2 := allocate_category [mkItem "curd" dairy 2] [mkItem "milk" dairy 1]
              dairy 5 in
  is_short a1 = is_short a2 /\ shortfall a1 == shortfall a2.
Proof.
  destruct (allocate_category_order_irrelevant
              [mkItem "milk" dairy 1; mkItem "curd" dairy 2] []
              [mkItem "curd" dairy 2] [mkItem "milk" dairy 1] dairy 5)
    as (H1 & H2 & _).
  - reflexivity.
  - reflexivity.
  - simpl. apply perm_swap.
  - split; assumption.
Defined.

(** X7.  After a call that was short, the category is empty: a further call
    for it takes nothing, changes nothing, and reports all of what it is
    asked as shortfall. *)
Theorem allocate_category_after_shortage
    (box_list main_list : list InventoryItem) (cat : Category) (needed again : Q) :
  is_short (allocate_category box_list main_list cat needed) = true ->
  0 < again ->
  let a := allocate_category box_list main_list cat needed in
  let b := allocate_category (box_after a) (main_after a) cat again in
  box_after b = box_after a
  /\ main_after b = main_after a
  /\ used_details b = []
  /\ shortfall b == again
  /\ is_short b = true.
Proof.
  intros Hshort Hagain.
  assert (Hpos : 0 < needed).
  { destruct (Qltb_spec 0 needed) as [H|H]; [exact H|].
    rewrite allocate_category_idle in Hshort by lra. discriminate. }
  destruct (allocate_category_outcome box_list main_list cat needed Hpos)
    as [(_ & _ & Hf & _) | (_ & _ & _ & _ & Hb & Hm)]; [congruence|].
  cbv zeta. rewrite Hb, Hm.
  pose proof (total_positive_exhaust cat box_list) as Eb.
  pose proof (total_positive_exhaust cat main_list) as Em.
  destruct (scan box cat (exhaust cat box_list) again) as [[b' ub] nl] eqn:E.
  destruct (scan_needed _ _ _ _ Hagain _ _ _ E)
    as [(-> & _ & Hle) | (Hl & Hn & Hs & ->)]; [lra|].
  destruct (allocate_category_cases (exhaust cat box_list) (exhaust cat main_list)
              cat again _ _ _ E)
    as [(Hnl & _) | (Hnl & m' & um & nl' & E' & ->)]; [lra|].
  destruct (scan_needed _ _ _ _ Hnl _ _ _ E')
    as [(-> & _ & Hle) | (Hl' & Hn' & Hs' & ->)]; [lra|]. simpl.
  destruct (Qltb_spec 0 nl'); [|lra].
  assert (Hexh : forall l, exhaust cat (exhaust cat l) = exhaust cat l).
  { induction l as [|item rest IH]; simpl; [reflexivity|]. rewrite IH. f_equal.
    unfold has_servings.
    destruct (bool_decide_reflect (category item = cat)) as [Hc|Hc]; simpl.
    - destruct (Qltb_spec 0 (servings_available item)); simpl.
      + rewrite (bool_decide_eq_true_2 _ Hc). simpl.
        destruct (Qltb_spec 0 0); [lra | reflexivity].
      + rewrite (bool_decide_eq_true_2 _ Hc). simpl.
        destruct (Qltb_spec 0 (servings_available item)); [lra | reflexivity].
    - rewrite (bool_decide_eq_false_2 _ Hc). reflexivity. }
  assert (Hnil : forall us : list UsageRecord,
            Forall (fun u => 0 < servings_used u) us -> sum_used us == 0 -> us = []).
  { intros us Hall Hsum. destruct Hall as [|u us Hu Hus]; [reflexivity|].
    exfalso. unfold sum_used in Hsum. simpl in Hsum.
    assert (0 <= Qsum (List.map servings_used us)).
    { clear Hsum. induction Hus as [|v vs Hv _ IH]; simpl; lra. }
    lra. }
  rewrite !Hexh. repeat split; [|lra].
  pose proof (scan_records _ _ _ _ _ _ _ E) as Rb.
  pose proof (scan_records _ _ _ _ _ _ _ E') as Rm.
  rewrite (Hnil ub), (Hnil um); [reflexivity | | lra | | lra].
  - eapply Forall_impl; [exact Rm|]. simpl. intros v Hv. apply Hv.
  - eapply Forall_impl; [exact Rb|]. simpl. intros v Hv. apply Hv.
Qed.

Lemma allocate_category_after_shortage_witness :
  let a := allocate_category [mkItem "milk" dairy 1] [mkItem "curd" dairy 2]
             dairy 5 in
  let b := allocate_category (box_after a) (main_after a) dairy 1 in
  used_details b = [] /\ is_short b = true.
Proof.
  destruct (allocate_category_after_shortage
              [mkItem "milk" dairy 1] [mkItem "curd" dairy 2] dairy 5 1)
    as (_ & _ & H3 & _ & H5); [reflexivity | lra |].
  split; assumption.
Defined.

Lemma item_step_refl (cat : Category) (item : InventoryItem) :
  item_step cat item item.
Proof. unfold item_step. repeat split; auto; lra. Qed.

Lemma Forall2_item_step_refl (cat : Category) (items : list InventoryItem) :
  Forall2 (item_step cat) items items.
Proof. induction items; constructor; auto using item_step_refl. Qed.

Lemma scan_frame (src : Source) (cat : Category) (items : list InventoryItem) :
  forall n items' used nl, scan src cat items n = (items', used, nl) ->
  Forall2 (item_step cat) items items'.
Proof.
  induction items as [|item rest IH]; intros n items' used nl; simpl.
  - intros [= <- <- <-]. constructor.
  - destruct (bool_decide_reflect (category item = cat)) as [Hc|Hc]; simpl.
    + destruct (Qltb_spec 0 n) as [Hn|Hn]; simpl.
      * destruct (Qleb_spec n (servings_available item)) as [Hle|Hle].
        -- intros [= <- <- <-]. constructor.
           ++ unfold item_step. simpl. repeat split; try lra. intros; contradiction.
           ++ apply Forall2_item_step_refl.
        -- destruct (Qltb_spec 0 (servings_available item)) as [Ha|Ha].
           ++ destruct (scan src cat rest (n - servings_available item))
                as [[r' u'] l'] eqn:E.
              intros [= <- <- <-]. constructor; [|eapply IH, E].
              unfold item_step. simpl. repeat split; try lra. intros; contradiction.
           ++ destruct (scan src cat rest n) as [[r' u'] l'] eqn:E.
              intros [= <- <- <-].
              constructor; [apply item_step_refl | eapply IH, E].
      * destruct (scan src cat rest n) as [[r' u'] l'] eqn:E.
        intros [= <- <- <-]. constructor; [apply item_step_refl | eapply IH, E].
    + destruct (scan src cat rest n) as [[r' u'] l'] eqn:E.
      intros [= <- <- <-]. constructor; [apply item_step_refl | eapply IH, E].
Qed.

(** X3.  A call only lowers servings of items of the category it is asked:
    position by position, an item keeps its name and category, its servings
    do not grow, non-negative servings stay non-negative, and an item of
    another category is the same after the call. *)
Theorem allocate_category_frame
    (box_list main_list : list InventoryItem) (cat : Category) (needed : Q) :
  let a := allocate_category box_list main_list cat needed in
  Forall2 (item_step cat) box_list (box_after a)
  /\ Forall2 (item_step cat) main_list (main_after a).
Proof.
  destruct (scan box cat box_list needed) as [[box' used_box] nl] eqn:E.
  pose proof (scan_frame _ _ _ _ _ _ _ E) as Hb.
  destruct (allocate_category_cases box_list main_list cat needed _ _ _ E)
    as [(_ & ->) | (_ & main' & used_main & nl' & E' & ->)]; simpl.
  - split; [exact Hb | apply Forall2_item_step_refl].
  - split; [exact Hb | eapply scan_frame, E'].
Qed.

Lemma taken_from_cons (cat : Category) (src : Source) (item : InventoryItem)
    (items : list InventoryItem) (u : UsageRecord) :
  taken_from cat src items u -> taken_from cat src (item :: items) u.
Proof.
  intros (H1 & H2 & it & Hin & H).
  repeat split; auto. exists it. split; [right; exact Hin | exact H].
Qed.

Lemma scan_taken_from (src : Source) (cat : Category) (items : list InventoryItem) :
  forall n items' used nl, scan src cat items n = (items', used, nl) ->
  Forall (taken_from cat src items) used.
Proof.
  induction items as [|item rest IH]; intros n items' used nl; simpl.
  - intros [= <- <- <-]. constructor.
  - destruct (bool_decide_reflect (category item = cat)) as [Hc|Hc]; simpl.
    + destruct (Qltb_spec 0 n) as [Hn|Hn]; simpl.
      * destruct (Qleb_spec n (servings_available item)) as [Hle|Hle].
        -- intros [= <- <- <-]. constructor; [|constructor].
           repeat split; auto. exists item. simpl. repeat split; auto.
        -- destruct (Qltb_spec 0 (servings_available item)) as [Ha|Ha].
           ++ destruct (scan src cat rest (n - servings_available item))
                as [[r' u'] l'] eqn:E.
              intros [= <- <- <-]. constructor.
              ** repeat split; auto. exists item. simpl. repeat split; auto. lra.
              ** eapply Forall_impl; [eapply IH, E|]. apply taken_from_cons.
           ++ destruct (scan src cat rest n) as [[r' u'] l'] eqn:E.
              intros [= <- <- <-].
              eapply Forall_impl; [eapply IH, E|]. apply taken_from_cons.
      * destruct (scan src cat rest n) as [[r' u'] l'] eqn:E.
        intros [= <- <- <-].
        eapply Forall_impl; [eapply IH, E|]. apply taken_from_cons.
    + destruct (scan src cat rest n) as [[r' u'] l'] eqn:E.
      intros [= <- <- <-].
      eapply Forall_impl; [eapply IH, E|]. apply taken_from_cons.
Qed.

(** X4.  The returned records are the box records followed by the main
    records.  Each one carries the category asked for and the name of an item
    of that category in the list of its source, and its amount is positive
    and no more than that item had: an item without positive servings is
    never in a record. *)
Theorem allocate_category_records
    (box_list main_list : list InventoryItem) (cat : Category) (needed : Q) :
  let a := allocate_category box_list main_list cat needed in
  exists used_box used_main,
    used_details a = used_box ++ used_main
    /\ Forall (taken_from cat box box_list) used_box
    /\ Forall (taken_from cat main main_list) used_main.
Proof.
  destruct (scan box cat box_list needed) as [[box' used_box] nl] eqn:E.
  pose proof (scan_taken_from _ _ _ _ _ _ _ E) as Hb.
  destruct (allocate_category_cases box_list main_list cat needed _ _ _ E)
    as [(_ & ->) | (_ & main' & used_main & nl' & E' & ->)]; simpl.
  - exists used_box, []. repeat split; auto.
  - exists used_box, used_main. repeat split; auto. eapply scan_taken_from, E'.
Qed.

Lemma scan_compose (src : Source) (cat : Category)
    (l1 l2 : list InventoryItem) (n : Q) :
  scan src cat (l1 ++ l2) n
  = let '(l1', used1, nl1) := scan src cat l1 n in
    let '(l2', used2, nl2) := scan src cat l2 nl1 in
    (l1' ++ l2', used1 ++ used2, nl2).
Proof.
  revert n. induction l1 as [|item rest IH]; intros n; simpl.
  - destruct (scan src cat l2 n) as [[l2' u2] nl2]. reflexivity.
  - destruct (bool_decide (category item = cat) && Qltb 0 n).
    + destruct (Qleb n (servings_available item)).
      * rewrite scan_nothing_needed by lra. reflexivity.
      * destruct (Qltb 0 (servings_available item)); rewrite IH.
        -- destruct (scan src cat rest (n - servings_available item))
             as [[r' u'] l'].
           destruct (scan src cat l2 l') as [[l2' u2] nl2]. reflexivity.
        -- destruct (scan src cat rest n) as [[r' u'] l'].
           destruct (scan src cat l2 l') as [[l2' u2] nl2]. reflexivity.
    + rewrite IH. destruct (scan src cat rest n) as [[r' u'] l'].
      destruct (scan src cat l2 l') as [[l2' u2] nl2]. reflexivity.
Qed.

(** X5.  The scan of a list in two parts: the second part is scanned for what
    the first part left to find.  When the first part covered the need the
    second part is left exactly as it was, and an item that covers what is
    left ends the scan ([break]): the items after it are not touched. *)
Theorem scan_app (src : Source) (cat : Category) (l1 l2 : list InventoryItem)
    (n : Q) :
  scan src cat (l1 ++ l2) n
  = (let '(l1', used1, nl1) := scan src cat l1 n in
     let '(l2', used2, nl2) := scan src cat l2 nl1 in
     (l1' ++ l2', used1 ++ used2, nl2))
  /\ (forall l1' used1 nl1,
        scan src cat l1 n = (l1', used1, nl1) -> nl1 <= 0 ->
        scan src cat (l1 ++ l2) n = (l1' ++ l2, used1, nl1))
  /\ (forall item rest,
        category item = cat -> 0 < n -> n <= servings_available item ->
        scan src cat (item :: rest) n
        = (set_servings item (servings_available item - n) :: rest,
           [mkUsage (item_name item) cat n src], 0)).
Proof.
  split; [apply scan_compose|]. split.
  - intros l1' used1 nl1 E Hnl. rewrite scan_compose, E.
    rewrite scan_nothing_needed by exact Hnl. rewrite app_nil_r. reflexivity.
  - intros item rest Hc Hn Hle. simpl.
    rewrite (bool_decide_eq_true_2 _ Hc).
    destruct (Qltb_spec 0 n); [|contradiction].
    destruct (Qleb_spec n (servings_available item)); [|contradiction].
    reflexivity.
Qed.

(** * Further properties of the meal planner *)

Lemma allocate_category_decrease
    (box_list main_list : list InventoryItem) (cat : Category) (needed : Q) :
  let a := allocate_category box_list main_list cat needed in
  sum_used (used_details a)
  == (total_servings box_list + total_servings main_list)
     - (total_servings (box_after a) + total_servings (main_after a)).
Proof.
  destruct (scan box cat box_list needed) as [[box' used_box] nl] eqn:E.
  pose proof (scan_conserves _ _ _ _ _ _ _ E) as Hcb.
  destruct (allocate_category_cases box_list main_list cat needed _ _ _ E)
    as [(_ & ->) | (_ & main' & used_main & nl' & E' & ->)]; simpl;
    rewrite sum_used_app.
  - unfold sum_used at 2. simpl. lra.
  - pose proof (scan_conserves _ _ _ _ _ _ _ E') as Hcm. lra.
Qed.

Lemma allocate_category_used_category
    (box_list main_list : list InventoryItem) (cat : Category) (needed : Q) :
  Forall (fun u => used_category u = cat /\ 0 < servings_used u)
    (used_details (allocate_category box_list main_list cat needed)).
Proof.
  destruct (scan box cat box_list needed) as [[box' used_box] nl] eqn:E.
  pose proof (scan_records _ _ _ _ _ _ _ E) as Hb.
  destruct (allocate_category_cases box_list main_list cat needed _ _ _ E)
    as [(_ & ->) | (_ & main' & used_main & nl' & E' & ->)]; simpl;
    apply Forall_app; split; try constructor;
    try (eapply Forall_impl; [exact Hb|]; simpl; intuition).
  pose proof (scan_records _ _ _ _ _ _ _ E') as Hm.
  eapply Forall_impl; [exact Hm|]. simpl. intuition.
Qed.

Lemma allocate_meal_decrease (meal_plan : list (Category * Q))
    (box_list main_list : list InventoryItem) :
  let r := allocate_meal box_list main_list meal_plan in
  sum_used (used_items r)
  == (total_servings box_list + total_servings main_list)
     - (total_servings (meal_box_after r) + total_servings (meal_main_after r))
  /\ Forall (fun u => 0 < servings_used u) (used_items r).
Proof.
  revert box_list main_list.
  induction meal_plan as [|[cat needed] rest IH]; intros box_list main_list.
  - simpl. split; [unfold sum_used; simpl; lra | constructor].
  - destruct (Qltb_spec 0 needed) as [Hpos|Hle].
    + rewrite allocate_meal_cons by exact Hpos. cbv zeta. simpl.
      pose proof (allocate_category_decrease box_list main_list cat needed) as Hd.
      pose proof (allocate_category_used_category box_list main_list cat needed)
        as Hu.
      destruct (IH (box_after (allocate_category box_list main_list cat needed))
                  (main_after (allocate_category box_list main_list cat needed)))
        as [Hs Hp].
      cbv zeta in *. split.
      * rewrite sum_used_app. lra.
      * apply Forall_app. split; [|exact Hp].
        eapply Forall_impl; [exact Hu|]. simpl. intuition.
    + rewrite allocate_meal_skip by lra. apply IH.
Qed.

Lemma sum_used_nonneg (used : list UsageRecord) :
  Forall (fun u => 0 < servings_used u) used -> 0 <= sum_used used.
Proof.
  unfold sum_used. induction 1 as [|u us Hu _ IH]; simpl; lra.
Qed.

(** X8.  For whole amounts, over a meal, the amounts of the returned records
    sum to what the two lists lost, every record has a positive amount, and
    the lists together never hold more after the meal than before. *)
Theorem allocate_meal_conserves (meal_plan : list (Category * Q))
    (box_list main_list : list InventoryItem) :
  whole_stock (box_list ++ main_list) = true ->
  whole_plan meal_plan = true ->
  let r := allocate_meal box_list main_list meal_plan in
  sum_used (used_items r)
  == (total_servings box_list + total_servings main_list)
     - (total_servings (meal_box_after r) + total_servings (meal_main_after r))
  /\ Forall (fun u => 0 < servings_used u) (used_items r)
  /\ total_servings (meal_box_after r) + total_servings (meal_main_after r)
     <= total_servings box_list + total_servings main_list.
Proof.
  intros _ _.
  destruct (allocate_meal_decrease meal_plan box_list main_list) as [Hsum Hpos].
  cbv zeta in *. split; [exact Hsum|]. split; [exact Hpos|].
  apply sum_used_nonneg in Hpos. lra.
Qed.

Lemma allocate_meal_conserves_witness :
  let box_list := [mkItem "apple" fruit_veg 10; mkItem "rice" cereal 1] in
  let main_list := [mkItem "oats" cereal 4; mkItem "milk" dairy 2] in
  let r := allocate_meal box_list main_list (MEALS BreakfastPlan) in
  sum_used (used_items r)
  == (total_servings box_list + total_servings main_list)
     - (total_servings (meal_box_after r) + total_servings (meal_main_after r)).
Proof.
  exact (proj1 (allocate_meal_conserves (MEALS BreakfastPlan)
                  [mkItem "apple" fruit_veg 10; mkItem "rice" cereal 1]
                  [mkItem "oats" cereal 4; mkItem "milk" dairy 2]
                  eq_refl eq_refl)).
Defined.

Lemma used_of_category_app (cat : Category) (u v : list UsageRecord) :
  used_of_category cat (u ++ v)
  == used_of_category cat u + used_of_category cat v.
Proof.
  induction u as [|x u IH]; simpl; [lra|]. rewrite IH. lra.
Qed.

Lemma used_of_category_same (cat c : Category) (used : list UsageRecord) :
  Forall (fun u => used_category u = cat /\ 0 < servings_used u) used ->
  used_of_category c used == if bool_decide (cat = c) then sum_used used else 0.
Proof.
  unfold sum_used.
  induction 1 as [|u us [Hu _] _ IH]; simpl.
  - destruct (bool_decide (cat = c)); lra.
  - rewrite IH, Hu. destruct (bool_decide (cat = c)); lra.
Qed.

Lemma allocate_meal_amounts (meal_plan : list (Category * Q))
    (box_list main_list : list InventoryItem) (c : Category) :
  let r := allocate_meal box_list main_list meal_plan in
  used_of_category c (used_items r) <= required c meal_plan
  /\ (shortage_any r = false ->
      used_of_category c (used_items r) == required c meal_plan).
Proof.
  revert box_list main_list.
  induction meal_plan as [|[cat needed] rest IH]; intros box_list main_list.
  - simpl. split; [lra | intros _; lra].
  - simpl required. destruct (Qltb_spec 0 needed) as [Hpos|Hle].
    + rewrite allocate_meal_cons by exact Hpos. cbv zeta. simpl.
      pose proof (allocate_category_used_category box_list main_list cat needed)
        as Hu.
      apply (used_of_category_same cat c) in Hu.
      pose proof (total_positive_nonneg cat box_list) as Hb.
      pose proof (total_positive_nonneg cat main_list) as Hm.
      destruct (IH (box_after (allocate_category box_list main_list cat needed))
                  (main_after (allocate_category box_list main_list cat needed)))
        as [Hle Heq].
      cbv zeta in *. rewrite used_of_category_app, Hu, andb_true_r.
      destruct (allocate_category_outcome box_list main_list cat needed Hpos)
        as [(_ & _ & Hf & Hs) | (Hlt & _ & Hf & Hs & _)]; cbv zeta in *;
        rewrite Hf; simpl; destruct (bool_decide (cat = c)).
      * split; [lra | intros Hr; specialize (Heq Hr); lra].
      * split; [lra | intros Hr; specialize (Heq Hr); lra].
      * split; [lra | discriminate].
      * split; [lra | discriminate].
    + rewrite allocate_meal_skip by lra. rewrite andb_false_r.
      destruct (IH box_list main_list) as [Hle' Heq]. cbv zeta in *.
      split; [lra | intros Hr; specialize (Heq Hr); lra].
Qed.

(** X9.  For whole amounts, a meal never takes more of a category than its
    requirement mapping asks (the positive entries for that category), and a
    meal without shortage takes exactly that much of every category. *)
Theorem allocate_meal_exact (meal_plan : list (Category * Q))
    (box_list main_list : list InventoryItem) :
  whole_stock (box_list ++ main_list) = true ->
  whole_plan meal_plan = true ->
  let r := allocate_meal box_list main_list meal_plan in
  (forall c, used_of_category c (used_items r) <= required c meal_plan)
  /\ (shortage_any r = false ->
      forall c, used_of_category c (used_items r) == required c meal_plan).
Proof.
  intros _ _. cbv zeta. split.
  - intros c. apply (allocate_meal_amounts meal_plan box_list main_list c).
  - intros Hr c. apply (allocate_meal_amounts meal_plan box_list main_list c), Hr.
Qed.

Lemma allocate_meal_exact_witness :
  let r := allocate_meal
             [mkItem "apple" fruit_veg 10; mkItem "rice" cereal 1]
             [mkItem "oats" cereal 4; mkItem "milk" dairy 2]
             (MEALS BreakfastPlan) in
  shortage_any r = false /\ used_of_category cereal (used_items r) == 1.
Proof.
  destruct (allocate_meal_exact (MEALS BreakfastPlan)
              [mkItem "apple" fruit_veg 10; mkItem "rice" cereal 1]
              [mkItem "oats" cereal 4; mkItem "milk" dairy 2]
              eq_refl eq_refl)
    as [_ H].
  split; [reflexivity|]. specialize (H eq_refl cereal). simpl in *. lra.
Defined.

(** X10.  A meal is flagged short exactly when one of its categories with
    [needed > 0] is short on the lists the categories before it left. *)
Theorem allocate_meal_short_iff (meal_plan : list (Category * Q))
    (box_list main_list : list InventoryItem) :
  shortage_any (allocate_meal box_list main_list meal_plan) = true
  <-> exists before cat needed after,
        meal_plan = before ++ (cat, needed) :: after
        /\ 0 < needed
        /\ let r := allocate_meal box_list main_list before in
           is_short (allocate_category (meal_box_after r) (meal_main_after r)
                       cat needed) = true.
Proof.
  split.
  - revert box_list main_list.
    induction meal_plan as [|[cat needed] rest IH]; intros box_list main_list.
    + simpl. discriminate.
    + destruct (Qltb_spec 0 needed) as [Hpos|Hle].
      * rewrite allocate_meal_cons by exact Hpos. cbv zeta. simpl.
        destruct (is_short (allocate_category box_list main_list cat needed))
          eqn:Hs; simpl.
        -- intros _. exists [], cat, needed, rest. simpl. auto.
        -- intros Hr. apply IH in Hr
             as (before & c & n & after & -> & Hn & Hshort).
           exists ((cat, needed) :: before), c, n, after.
           split; [reflexivity|]. split; [exact Hn|].
           cbv zeta in *. rewrite allocate_meal_cons by exact Hpos. exact Hshort.
      * rewrite allocate_meal_skip by lra. intros Hr.
        apply IH in Hr as (before & c & n & after & -> & Hn & Hshort).
        exists ((cat, needed) :: before), c, n, after.
        split; [reflexivity|]. split; [exact Hn|].
        cbv zeta in *. rewrite allocate_meal_skip by lra. exact Hshort.
  - intros (before & cat & needed & after & -> & Hpos & Hshort).
    rewrite allocate_meal_app. cbv zeta in *.
    rewrite allocate_meal_cons by exact Hpos. simpl.
    rewrite Hshort. simpl. apply orb_true_r.
Qed.

(** * Properties of the summaries *)

Lemma usage_add_keys (key : string * Category) (v : Q)
    (usage_map : list (string * Category * Q)) (k : string * Category) :
  In k (List.map fst (usage_add key v usage_map))
  <-> k = key \/ In k (List.map fst usage_map).
Proof.
  induction usage_map as [|[k0 t] r IH]; simpl.
  - intuition.
  - destruct (bool_decide_reflect (k0 = key)) as [->|Hne]; simpl.
    + intuition.
    + rewrite IH. intuition.
Qed.

Lemma usage_add_NoDup (key : string * Category) (v : Q)
    (usage_map : list (string * Category * Q)) :
  List.NoDup (List.map fst usage_map) ->
  List.NoDup (List.map fst (usage_add key v usage_map)).
Proof.
  induction usage_map as [|[k0 t] r IH]; simpl; intros Hnd.
  - constructor; [intros [] | constructor].
  - apply List.NoDup_cons_iff in Hnd as [Hnotin Hnd].
    destruct (bool_decide_reflect (k0 = key)) as [->|Hne]; simpl.
    + constructor; assumption.
    + constructor; [|apply IH, Hnd].
      rewrite usage_add_keys. intros [->|Hin]; [congruence | contradiction].
Qed.

Lemma usage_get_add (key : string * Category) (v : Q)
    (usage_map : list (string * Category * Q)) (k : string * Category) :
  usage_get k (usage_add key v usage_map)
  == usage_get k usage_map + (if bool_decide (key = k) then v else 0).
Proof.
  induction usage_map as [|[k0 t] r IH]; simpl.
  - destruct (bool_decide (key = k)); lra.
  - destruct (bool_decide_reflect (k0 = key)) as [->|Hne]; simpl.
    + destruct (bool_decide (key = k)); lra.
    + destruct (bool_decide_reflect (k0 = k)) as [->|Hne'].
      * rewrite (bool_decide_eq_false_2 (key = k)) by congruence. lra.
      * exact IH.
Qed.

Lemma usage_add_sum (key : string * Category) (v : Q)
    (usage_map : list (string * Category * Q)) :
  Qsum (List.map snd (usage_add key v usage_map))
  == Qsum (List.map snd usage_map) + v.
Proof.
  induction usage_map as [|[k0 t] r IH]; simpl; [lra|].
  destruct (bool_decide (k0 = key)); simpl; lra.
Qed.

Lemma usage_get_NoDup (usage_map : list (string * Category * Q))
    (k : string * Category) (t : Q) :
  List.NoDup (List.map fst usage_map) ->
  In (k, t) usage_map -> usage_get k usage_map = t.
Proof.
  induction usage_map as [|[k0 t0] r IH]; simpl; intros Hnd; [intros []|].
  apply List.NoDup_cons_iff in Hnd as [Hnotin Hnd].
  intros [[= -> ->]|Hin].
  - rewrite bool_decide_eq_true_2 by reflexivity. reflexivity.
  - destruct (bool_decide_reflect (k0 = k)) as [->|Hne]; [|apply IH; assumption].
    exfalso. apply Hnotin. apply in_map_iff. exists (k, t). auto.
Qed.

Lemma summarize_step_side (src : Source)
    (maps : list (string * Category * Q) * list (string * Category * Q))
    (u : UsageRecord) :
  side src (summarize_step maps u)
  = if bool_decide (from u = src)
    then usage_add (usage_key u) (servings_used u) (side src maps)
    else side src maps.
Proof.
  unfold summarize_step, usage_key. destruct (from u), src; reflexivity.
Qed.

Lemma summarize_day_usage_records (day_meals : list MealResult) :
  summarize_day_usage day_meals
  = let maps := fold_left summarize_step (day_records day_meals) ([], []) in
    (map_to_list (fst maps), map_to_list (snd maps)).
Proof.
  unfold summarize_day_usage, day_records. cbv zeta.
  generalize (@nil (string * Category * Q), @nil (string * Category * Q)).
  induction day_meals as [|meal rest IH]; intros maps; simpl; [reflexivity|].
  rewrite fold_left_app. apply IH.
Qed.

(** What the pass over the records leaves in the map of one source. *)
Lemma summarize_fold (src : Source) (used : list UsageRecord) :
  forall maps,
  let maps' := fold_left summarize_step used maps in
  (List.NoDup (List.map fst (side src maps)) ->
   List.NoDup (List.map fst (side src maps')))
  /\ (forall k, In k (List.map fst (side src maps'))
                <-> In k (List.map fst (side src maps))
                    \/ exists u, In u used /\ from u = src /\ usage_key u = k)
  /\ (forall k, usage_get k (side src maps')
                == usage_get k (side src maps) + used_of_key src k used)
  /\ Qsum (List.map snd (side src maps'))
     == Qsum (List.map snd (side src maps)) + used_of_source src used.
Proof.
  unfold used_of_source.
  induction used as [|u rest IH]; intros maps; simpl.
  - split; [auto|]. split; [|split; [intros k; lra | lra]].
    intros k. split; [auto | intros [H|(u & [] & _)]; exact H].
  - destruct (IH (summarize_step maps u)) as (Hnd & Hkeys & Hget & Hsum).
    cbv zeta in *. rewrite summarize_step_side in Hnd, Hkeys, Hget, Hsum.
    destruct (bool_decide_reflect (from u = src)) as [Hsrc|Hsrc]; simpl.
    + split; [|split; [|split]].
      * intros H. apply Hnd, usage_add_NoDup, H.
      * intros k. rewrite Hkeys, usage_add_keys. split.
        -- intros [[->|H]|(v & Hv & Hf & Hk)]; eauto 6.
        -- intros [H|(v & [<-|Hv] & Hf & Hk)]; eauto 6.
      * intros k. rewrite Hget, usage_get_add.
        destruct (bool_decide (usage_key u = k)); lra.
      * rewrite Hsum, usage_add_sum. lra.
    + split; [|split; [|split]].
      * exact Hnd.
      * intros k. rewrite Hkeys. split.
        -- intros [H|(v & Hv & Hf & Hk)]; eauto 6.
        -- intros [H|(v & [<-|Hv] & Hf & Hk)]; eauto 6. contradiction.
      * intros k. rewrite Hget. lra.
      * rewrite Hsum. lra.
Qed.

Lemma map_to_list_keys (usage_map : list (string * Category * Q)) :
  List.map total_key (map_to_list usage_map) = List.map fst usage_map.
Proof.
  induction usage_map as [|[[n c] t] r IH]; simpl; [reflexivity|].
  rewrite IH. reflexivity.
Qed.

Lemma map_to_list_In (usage_map : list (string * Category * Q)) (t : UsageTotal) :
  In t (map_to_list usage_map)
  -> In (total_key t, total_servings_used t) usage_map.
Proof.
  induction usage_map as [|[[n c] v] r IH]; simpl; [auto|].
  intros [<-|H]; [left; reflexivity | right; auto].
Qed.

Lemma map_to_list_sum (usage_map : list (string * Category * Q)) :
  sum_totals (map_to_list usage_map) = Qsum (List.map snd usage_map).
Proof.
  unfold sum_totals.
  induction usage_map as [|[[n c] v] r IH]; simpl; [reflexivity|].
  rewrite IH. reflexivity.
Qed.

(** X11.  For records of whole amounts, the box summary of a day adds up to
    what the box records of its meals add up to, and the main summary to
    what the main records add up to: summing by key loses nothing. *)
Theorem summarize_day_usage_totals (day_meals : list MealResult) :
  whole_records (day_records day_meals) = true ->
  sum_totals (fst (summarize_day_usage day_meals))
  == used_of_source box (day_records day_meals)
  /\ sum_totals (snd (summarize_day_usage day_meals))
     == used_of_source main (day_records day_meals).
Proof.
  intros _.
  rewrite summarize_day_usage_records. cbv zeta. simpl.
  rewrite !map_to_list_sum.
  destruct (summarize_fold box (day_records day_meals) ([], []))
    as (_ & _ & _ & Hb).
  destruct (summarize_fold main (day_records day_meals) ([], []))
    as (_ & _ & _ & Hm).
  simpl in Hb, Hm. split; lra.
Qed.

Lemma summarize_day_usage_totals_witness :
  let day_meals :=
    [mkMealResult "Breakfast" (MEALS BreakfastPlan)
       [mkUsage "apple" fruit_veg 1 box; mkUsage "rice" cereal 1 main];
     mkMealResult "Lunch" (MEALS LunchPlan)
       [mkUsage "apple" fruit_veg 2 box]] in
  sum_totals (fst (summarize_day_usage day_meals)) == 3
  /\ sum_totals (snd (summarize_day_usage day_meals)) == 1.
Proof.
  destruct (summarize_day_usage_totals
              [mkMealResult "Breakfast" (MEALS BreakfastPlan)
                 [mkUsage "apple" fruit_veg 1 box; mkUsage "rice" cereal 1 main];
               mkMealResult "Lunch" (MEALS LunchPlan)
                 [mkUsage "apple" fruit_veg 2 box]] eq_refl) as [H1 H2].
  cbv zeta. split.
  - rewrite H1. vm_compute. reflexivity.
  - rewrite H2. vm_compute. reflexivity.
Defined.

(** X12.  In a summary no [(item_name, category)] pair is listed twice; a
    line of the summary of a source carries the sum of the records of that
    source with that pair, and there is such a record; and every record has
    its line in the summary of its source. *)
Theorem summarize_day_usage_lines (day_meals : list MealResult) (src : Source) :
  let lines :=
    match src with
    | box => fst (summarize_day_usage day_meals)
    | main => snd (summarize_day_usage day_meals)
    end in
  List.NoDup (List.map total_key lines)
  /\ (forall t, In t lines ->
        total_servings_used t
        == used_of_key src (total_key t) (day_records day_meals)
        /\ exists u, In u (day_records day_meals)
                     /\ from u = src /\ usage_key u = total_key t)
  /\ (forall u, In u (day_records day_meals) -> from u = src ->
        exists t, In t lines /\ total_key t = usage_key u).
Proof.
  rewrite summarize_day_usage_records. cbv zeta.
  destruct (summarize_fold src (day_records day_meals) ([], []))
    as (Hnd & Hkeys & Hget & _).
  cbv zeta in *.
  set (maps := fold_left summarize_step (day_records day_meals) ([], [])) in *.
  assert (Hlines : match src with
                   | box => fst (map_to_list (fst maps), map_to_list (snd maps))
                   | main => snd (map_to_list (fst maps), map_to_list (snd maps))
                   end = map_to_list (side src maps))
    by (destruct src; reflexivity).
  rewrite Hlines. clear Hlines.
  assert (Hempty : side src ([], []) = []) by (destruct src; reflexivity).
  rewrite Hempty in Hnd, Hkeys, Hget. simpl in Hnd, Hkeys, Hget.
  specialize (Hnd ltac:(constructor)).
  split; [|split].
  - rewrite map_to_list_keys. exact Hnd.
  - intros t Ht. apply map_to_list_In in Ht. split.
    + rewrite <- (usage_get_NoDup _ _ _ Hnd Ht). rewrite Hget. lra.
    + assert (Hk : In (total_key t) (List.map fst (side src maps))).
      { apply in_map_iff. exists (total_key t, total_servings_used t). auto. }
      apply Hkeys in Hk as [[]|Hu]. exact Hu.
  - intros u Hu Hsrc.
    assert (Hk : In (usage_key u) (List.map fst (side src maps))).
    { apply Hkeys. right. exists u. auto. }
    rewrite <- map_to_list_keys in Hk. apply in_map_iff in Hk as (t & Ht & Hin).
    exists t. auto.
Qed.

(** * Properties of the day and month loops *)

Lemma item_step_kept (cat : Category) (x y : InventoryItem) :
  item_step cat x y -> item_kept x y.
Proof. unfold item_step, item_kept. intuition. Qed.

Lemma Forall2_item_kept_refl (items : list InventoryItem) :
  Forall2 item_kept items items.
Proof.
  induction items; constructor; auto. unfold item_kept. repeat split; auto; lra.
Qed.

Lemma Forall2_item_kept_trans (l1 l2 l3 : list InventoryItem) :
  Forall2 item_kept l1 l2 -> Forall2 item_kept l2 l3 -> Forall2 item_kept l1 l3.
Proof.
  intros H12. revert l3.
  induction H12 as [|x y l1 l2 Hxy _ IH]; intros l3 H23;
    inversion H23 as [|y' z l2' l3' Hyz H23']; subst; constructor; auto.
  unfold item_kept in *. destruct Hxy as (? & ? & ? & ?), Hyz as (? & ? & ? & ?).
  repeat split; try congruence; [lra | auto].
Qed.

Lemma allocate_category_kept
    (box_list main_list : list InventoryItem) (cat : Category) (needed : Q) :
  let a := allocate_category box_list main_list cat needed in
  Forall2 item_kept box_list (box_after a)
  /\ Forall2 item_kept main_list (main_after a).
Proof.
  destruct (scan box cat box_list needed) as [[box' used_box] nl] eqn:E.
  pose proof (scan_frame _ _ _ _ _ _ _ E) as Hb.
  destruct (allocate_category_cases box_list main_list cat needed _ _ _ E)
    as [(_ & ->) | (_ & main' & used_main & nl' & E' & ->)]; simpl.
  - split; [|apply Forall2_item_kept_refl].
    eapply Forall2_impl; [exact Hb|]. apply item_step_kept.
  - split; (eapply Forall2_impl; [|apply (item_step_kept cat)]);
      [exact Hb | eapply scan_frame, E'].
Qed.

Lemma allocate_meal_kept (meal_plan : list (Category * Q)) :
  forall box_list main_list,
  let r := allocate_meal box_list main_list meal_plan in
  Forall2 item_kept box_list (meal_box_after r)
  /\ Forall2 item_kept main_list (meal_main_after r).
Proof.
  induction meal_plan as [|[cat needed] rest IH]; intros box_list main_list.
  - simpl. split; apply Forall2_item_kept_refl.
  - destruct (Qltb_spec 0 needed) as [Hpos|Hle].
    + rewrite allocate_meal_cons by exact Hpos. cbv zeta. simpl.
      destruct (allocate_category_kept box_list main_list cat needed) as [Hb Hm].
      destruct (IH (box_after (allocate_category box_list main_list cat needed))
                  (main_after (allocate_category box_list main_list cat needed)))
        as [Hb' Hm'].
      split; eapply Forall2_item_kept_trans; eauto.
    + rewrite allocate_meal_skip by lra. apply IH.
Qed.

Lemma day_records_app (l1 l2 : list MealResult) :
  day_records (l1 ++ l2) = day_records l1 ++ day_records l2.
Proof. unfold day_records. rewrite List.map_app, concat_app. reflexivity. Qed.

Lemma meals_loop_kept (keys : list MealKey) :
  forall box_list main_list day_meals b m dm s,
  meals_loop keys box_list main_list day_meals = (b, m, dm, s) ->
  Forall2 item_kept box_list b /\ Forall2 item_kept main_list m.
Proof.
  induction keys as [|k rest IH]; intros box_list main_list day_meals b m dm s;
    simpl.
  - intros [= <- <- <- <-]. split; apply Forall2_item_kept_refl.
  - destruct (allocate_meal_kept (MEALS k) box_list main_list) as [Hb Hm].
    destruct (shortage_any (allocate_meal box_list main_list (MEALS k))).
    + intros [= <- <- <- <-]. auto.
    + intros E. apply IH in E as [Hb' Hm'].
      split; eapply Forall2_item_kept_trans; eauto.
Qed.

(** A day whose meals were all served. *)
Lemma meals_loop_served (keys : list MealKey) :
  forall box_list main_list day_meals b m dm,
  meals_loop keys box_list main_list day_meals = (b, m, dm, false) ->
  exists results,
    dm = day_meals ++ results
    /\ List.map meal_time results = List.map meal_time_of keys
    /\ List.map meal_plan_requirements results = List.map MEALS keys
    /\ sum_used (day_records results)
       == (total_servings box_list + total_servings main_list)
          - (total_servings b + total_servings m)
    /\ forall c, used_of_category c (day_records results)
                 == Qsum (List.map (fun k => required c (MEALS k)) keys).
Proof.
  induction keys as [|k rest IH]; intros box_list main_list day_meals b m dm;
    simpl.
  - intros [= <- <- <-]. exists []. rewrite app_nil_r.
    unfold sum_used. simpl. repeat split; auto; intros; lra.
  - pose proof (allocate_meal_decrease (MEALS k) box_list main_list) as [Hd _].
    pose proof (allocate_meal_amounts (MEALS k) box_list main_list) as Ha.
    cbv zeta in Hd, Ha.
    destruct (shortage_any (allocate_meal box_list main_list (MEALS k))) eqn:Hs;
      [discriminate|].
    intros E. apply IH in E as (results & -> & Ht & Hr & Hsum & Hcat).
    eexists (_ :: results). rewrite <- app_assoc. simpl.
    split; [reflexivity|]. rewrite Ht, Hr.
    split; [reflexivity|]. split; [reflexivity|].
    change (day_records (?x :: results))
      with (meal_used_items x ++ day_records results).
    simpl meal_used_items. split.
    + rewrite sum_used_app. lra.
    + intros c. rewrite used_of_category_app, Hcat.
      destruct (Ha c) as [_ Heq]. rewrite (Heq eq_refl). lra.
Qed.

(** The two ways through the body of the day loop. *)
Lemma day_step_cases (st : MonthState) (day_num : Z) :
  (shortage_for_day (st_box_list st) (st_main_list st) = true
   /\ day_step st day_num
      = mkMonthState (st_box_list st) (st_main_list st)
          (st_day_plans st ++ [mkDayPlan day_num [] None None])
          (st_day_shortages st ++
             [mkDayShortage day_num
                ["Not enough box+main inventory to fulfill 5-4-3-2-1 plan"]]))
  \/ (shortage_for_day (st_box_list st) (st_main_list st) = false
      /\ exists b m dm,
           meals_loop MEAL_ORDER (st_box_list st) (st_main_list st) []
           = (b, m, dm, false)
           /\ day_step st day_num
              = mkMonthState b m
                  (st_day_plans st ++
                     [mkDayPlan day_num dm
                        (Some (fst (summarize_day_usage dm)))
                        (Some (snd (summarize_day_usage dm)))])
                  (st_day_shortages st)).
Proof.
  destruct (shortage_for_day (st_box_list st) (st_main_list st)) eqn:Hs.
  - left. split; [reflexivity|]. apply day_step_short, Hs.
  - right. split; [reflexivity|].
    unfold shortage_for_day in Hs. unfold day_step.
    destruct (meals_loop MEAL_ORDER (st_box_list st) (st_main_list st) [])
      as [[[b m] dm] s].
    cbn [snd] in Hs. subst s. exists b, m, dm. split; [reflexivity|].
    destruct (summarize_day_usage dm) as [bu mu]. reflexivity.
Qed.

(** A property of the state that the body of the day loop keeps holds after
    any number of days. *)
Lemma days_loop_invariant (I : MonthState -> Prop) :
  (forall st day_num, I st -> I (day_step st day_num)) ->
  forall days st, I st -> I (days_loop days st).
Proof.
  intros Hstep days. induction days as [|d rest IH]; intros st Hst; simpl;
    [exact Hst | apply IH, Hstep, Hst].
Qed.

(** X13.  Over any run of days no item is added, dropped, renamed, moved or
    recategorised in either list; the servings of an item never grow and,
    when they start non-negative, never become negative. *)
Theorem days_loop_keeps_items (days : list Z) (st : MonthState) :
  Forall2 item_kept (st_box_list st) (st_box_list (days_loop days st))
  /\ Forall2 item_kept (st_main_list st) (st_main_list (days_loop days st)).
Proof.
  apply (days_loop_invariant
           (fun st' => Forall2 item_kept (st_box_list st) (st_box_list st')
                       /\ Forall2 item_kept (st_main_list st) (st_main_list st'))).
  - intros st' d [Hb Hm].
    destruct (day_step_cases st' d) as [(_ & ->) | (_ & b & m & dm & E & ->)];
      cbn [st_box_list st_main_list]; [auto|].
    apply meals_loop_kept in E as [Hb' Hm'].
    split; eapply Forall2_item_kept_trans; eauto.
  - split; apply Forall2_item_kept_refl.
Qed.

(** X14.  Once a day is short every later day is short as well: the lists
    are handed back unchanged, so each following day meets the same shortage
    and adds an empty plan and a shortage entry. *)
Theorem shortage_is_permanent (days : list Z) (st : MonthState) :
  shortage_for_day (st_box_list st) (st_main_list st) = true ->
  days_loop days st
  = mkMonthState (st_box_list st) (st_main_list st)
      (st_day_plans st ++ List.map (fun d => mkDayPlan d [] None None) days)
      (st_day_shortages st ++
         List.map (fun d => mkDayShortage d
                     ["Not enough box+main inventory to fulfill 5-4-3-2-1 plan"])
           days).
Proof.
  revert st. induction days as [|d rest IH]; intros st Hs; simpl.
  - rewrite !app_nil_r. destruct st; reflexivity.
  - rewrite (day_step_short st d Hs).
    fold (days_loop rest).
    rewrite IH by exact Hs. cbn [st_box_list st_main_list st_day_plans
                                 st_day_shortages].
    rewrite <- !app_assoc. reflexivity.
Qed.

Lemma shortage_is_permanent_witness :
  let st := mkMonthState [mkItem "apple" fruit_veg 1] [] [] [] in
  List.map day_number (st_day_plans (days_loop [1; 2; 3]%Z st)) = [1; 2; 3]%Z
  /\ List.map meals (st_day_plans (days_loop [1; 2; 3]%Z st)) = [[]; []; []]
  /\ st_box_list (days_loop [1; 2; 3]%Z st) = [mkItem "apple" fruit_veg 1].
Proof.
  cbv zeta.
  rewrite (shortage_is_permanent [1; 2; 3]%Z
             (mkMonthState [mkItem "apple" fruit_veg 1] [] [] []) eq_refl).
  repeat split.
Defined.

(** X15.  From lists of whole servings, what the lists lose over a run of
    days is what the records of the day plans added by the run add up to: a
    shortage day adds nothing, a served day adds what its meals took. *)
Theorem days_loop_conserves (days : list Z) (st : MonthState) :
  whole_stock (st_box_list st ++ st_main_list st) = true ->
  let st' := days_loop days st in
  plans_used (st_day_plans st') - plans_used (st_day_plans st)
  == (total_servings (st_box_list st) + total_servings (st_main_list st))
     - (total_servings (st_box_list st') + total_servings (st_main_list st')).
Proof.
  intros _. cbv zeta.
  apply (days_loop_invariant
           (fun st' =>
              plans_used (st_day_plans st') - plans_used (st_day_plans st)
              == (total_servings (st_box_list st) + total_servings (st_main_list st))
                 - (total_servings (st_box_list st')
                    + total_servings (st_main_list st')))); [|lra].
  intros st' d Hinv.
  assert (Happ : forall plans p,
            plans_used (plans ++ [p])
            == plans_used plans + sum_used (day_records (meals p))).
  { intros plans p. unfold plans_used. rewrite List.map_app. simpl.
    induction (List.map (fun d0 => sum_used (day_records (meals d0))) plans)
      as [|x xs IH]; simpl; lra. }
  destruct (day_step_cases st' d) as [(_ & ->) | (_ & b & m & dm & E & ->)];
    cbn [st_box_list st_main_list st_day_plans]; rewrite Happ;
    cbn [meals].
  - unfold day_records, sum_used. simpl. lra.
  - apply meals_loop_served in E as (results & -> & _ & _ & Hsum & _).
    simpl. lra.
Qed.

Lemma days_loop_conserves_witness :
  let st := mkMonthState
              [mkItem "Apple" fruit_veg 6; mkItem "Rice" cereal 5;
               mkItem "Milk" dairy 3; mkItem "Dal" protein 2;
               mkItem "Ghee" oil 4] [] [] [] in
  let st' := days_loop [1; 2]%Z st in
  plans_used (st_day_plans st') - plans_used (st_day_plans st)
  == (total_servings (st_box_list st) + total_servings (st_main_list st))
     - (total_servings (st_box_list st') + total_servings (st_main_list st')).
Proof.
  apply (days_loop_conserves [1; 2]%Z
           (mkMonthState
              [mkItem "Apple" fruit_veg 6; mkItem "Rice" cereal 5;
               mkItem "Milk" dairy 3; mkItem "Dal" protein 2;
               mkItem "Ghee" oil 4] [] [] [])).
  reflexivity.
Defined.

(** * Properties of the month plan *)

Lemma missing_column_None (needed_cols cols : list string) :
  missing_column needed_cols cols = None
  <-> Forall (fun c => c ∈ cols) needed_cols.
Proof.
  induction needed_cols as [|c r IH]; simpl.
  - split; [constructor | reflexivity].
  - destruct (bool_decide_reflect (c ∈ cols)) as [Hc|Hc].
    + rewrite IH. split; [constructor; assumption|].
      intros H. inversion H; assumption.
    + split; [discriminate|]. intros H. inversion H; contradiction.
Qed.

Lemma Return_inj {A : Type} (a b : A) : Return a = Return b -> a = b.
Proof. intros [= H]. exact H. Qed.

Lemma month_plan_fields (m c : Z) (original : list InventoryRow)
    (plans : list DayPlan) (reports : list ShortageReport) :
  month_requested (mkMonthPlan m c original plans reports) = m
  /\ cycle_month (mkMonthPlan m c original plans reports) = c
  /\ senior_box_items_for_month (mkMonthPlan m c original plans reports) = original
  /\ final_daily_plan (mkMonthPlan m c original plans reports) = plans
  /\ all_shortages (mkMonthPlan m c original plans reports) = reports.
Proof. repeat split. Qed.

(** What a run that returns has done. *)
Lemma generate_monthly_plan_returns (month : Z) (data : Workbooks)
    (plan : MonthPlan) :
  generate_monthly_plan month data = Return plan ->
  exists ref_map box_original box_list main_list,
    load_food_reference (food_category_xlsx data) = Return ref_map
    /\ load_senior_box_data_and_list (get_cycle_month month) ref_map
         (senior_box_xlsx data) = Return (box_original, box_list)
    /\ load_main_inventory_items ref_map (excel_file_xlsx data) = Return main_list
    /\ month_requested plan = month
    /\ cycle_month plan = get_cycle_month month
    /\ senior_box_items_for_month plan = box_original
    /\ final_daily_plan plan
       = st_day_plans (days_loop day_range (mkMonthState box_list main_list [] []))
    /\ all_shortages plan
       = match st_day_shortages
                 (days_loop day_range (mkMonthState box_list main_list [] []))
         with
         | [] => []
         | day_shortages => [mkShortageReport "meal_plan_shortage" day_shortages]
         end.
Proof.
  unfold generate_monthly_plan.
  destruct (load_food_reference (food_category_xlsx data)) as [ref_map|] eqn:E1;
    [|discriminate].
  destruct (load_senior_box_data_and_list (get_cycle_month month) ref_map
              (senior_box_xlsx data)) as [[box_original box_list]|] eqn:E2;
    [|discriminate].
  destruct (load_main_inventory_items ref_map (excel_file_xlsx data))
    as [main_list|] eqn:E3; [|discriminate].
  intros H. apply Return_inj in H.
  exists ref_map, box_original, box_list, main_list.
  split; [reflexivity|]. split; [exact E2|]. split; [exact E3|].
  rewrite <- H. apply month_plan_fields.
Qed.

Lemma days_loop_day_numbers (days : list Z) :
  forall st,
  List.map day_number (st_day_plans (days_loop days st))
  = List.map day_number (st_day_plans st) ++ days.
Proof.
  induction days as [|d rest IH]; intros st; simpl.
  - rewrite app_nil_r. reflexivity.
  - fold (days_loop rest). rewrite IH.
    destruct (day_step_cases st d) as [(_ & ->) | (_ & b & m & dm & _ & ->)];
      cbn [st_day_plans]; rewrite List.map_app, <- app_assoc; reflexivity.
Qed.

Lemma daily_requirement_values (c : Category) :
  daily_requirement c
  == match c with
     | fruit_veg => 5
     | cereal => 4
     | oil => 3
     | dairy => 2
     | protein => 1
     end.
Proof. destruct c; vm_compute; reflexivity. Qed.

Lemma sum_used_by_category (used : list UsageRecord) :
  sum_used used
  == used_of_category fruit_veg used + used_of_category dairy used
     + used_of_category protein used + used_of_category cereal used
     + used_of_category oil used.
Proof.
  unfold sum_used. induction used as [|u r IH]; simpl; [lra|].
  rewrite IH. destruct (used_category u); simpl; lra.
Qed.

Lemma days_loop_day_kinds (days : list Z) (st : MonthState) :
  let served d :=
    full_day d
    /\ forall c, used_of_category c (day_records (meals d)) == daily_requirement c in
  Forall (fun d => short_day d \/ served d) (st_day_plans st) ->
  Forall (fun d => short_day d \/ served d) (st_day_plans (days_loop days st)).
Proof.
  intros served.
  apply (days_loop_invariant
           (fun st' => Forall (fun d => short_day d \/ served d) (st_day_plans st'))).
  intros st' d Hall.
  destruct (day_step_cases st' d) as [(_ & ->) | (_ & b & m & dm & E & ->)];
    cbn [st_day_plans]; apply Forall_app; (split; [exact Hall|]);
    (constructor; [|constructor]).
  - left. repeat split.
  - right. apply meals_loop_served in E as (results & -> & Ht & Hr & _ & Hcat).
    rewrite app_nil_l. split; [|exact Hcat].
    unfold full_day. cbn [meals day_box_usage day_main_usage].
    split; [exact Ht|]. split; [exact Hr|]. split; reflexivity.
Qed.

(** X16.  A plan that is returned has the thirty days 1 to 30 in order, and
    each day is of one of two kinds: a shortage day, without meals and
    without usage summaries, or a served day, with breakfast, lunch and
    dinner in that order, each with its requirement table, and the two
    summaries of their records. *)
Theorem month_plan_days (month : Z) (data : Workbooks) (plan : MonthPlan) :
  generate_monthly_plan month data = Return plan ->
  List.map day_number (final_daily_plan plan) = List.map Z.of_nat (seq 1 30)
  /\ Forall (fun d => short_day d \/ full_day d) (final_daily_plan plan)
  /\ month_requested plan = month
  /\ cycle_month plan = get_cycle_month month.
Proof.
  intros Hplan.
  apply generate_monthly_plan_returns in Hplan
    as (ref_map & box_original & box_list & main_list & _ & _ & _
        & Hmonth & Hcycle & _ & Hdays & _).
  rewrite Hdays. split; [|split; auto].
  - rewrite days_loop_day_numbers. reflexivity.
  - eapply Forall_impl.
    + apply (days_loop_day_kinds day_range (mkMonthState box_list main_list [] [])).
      constructor.
    + simpl. intros d [H|[H _]]; auto.
Qed.

(** X17.  In a month loop that starts from lists of whole servings, the
    records of the three meals of every served day add up, per category, to
    the 5-4-3-2-1 of the requirement tables: 5 of fruit and vegetables, 4 of
    cereal, 3 of oil, 2 of dairy and 1 of protein, 15 servings in all. *)
Theorem served_day_amounts (days : list Z) (st : MonthState) (d : DayPlan) :
  whole_stock (st_box_list st ++ st_main_list st) = true ->
  st_day_plans st = [] ->
  In d (st_day_plans (days_loop days st)) ->
  meals d <> [] ->
  (forall c, used_of_category c (day_records (meals d))
             == match c with
                | fruit_veg => 5
                | cereal => 4
                | oil => 3
                | dairy => 2
                | protein => 1
                end)
  /\ sum_used (day_records (meals d)) == 15.
Proof.
  intros _ Hplans Hin Hmeals.
  pose proof (days_loop_day_kinds days st) as Hall.
  cbv zeta in Hall. rewrite Hplans in Hall. specialize (Hall ltac:(constructor)).
  rewrite List.Forall_forall in Hall.
  destruct (Hall d Hin) as [(Hempty & _)|(_ & Hcat)]; [contradiction|].
  assert (Hc : forall c, used_of_category c (day_records (meals d))
                         == match c with
                            | fruit_veg => 5
                            | cereal => 4
                            | oil => 3
                            | dairy => 2
                            | protein => 1
                            end).
  { intros c. rewrite Hcat. apply daily_requirement_values. }
  split; [exact Hc|].
  rewrite sum_used_by_category.
  rewrite (Hc fruit_veg), (Hc dairy), (Hc protein), (Hc cereal), (Hc oil). lra.
Qed.

Lemma days_loop_shortages (days : list Z) (st : MonthState) :
  st_day_shortages st
  = List.map (fun d => shortage_entry (day_number d))
      (List.filter is_short_day (st_day_plans st)) ->
  st_day_shortages (days_loop days st)
  = List.map (fun d => shortage_entry (day_number d))
      (List.filter is_short_day (st_day_plans (days_loop days st))).
Proof.
  apply (days_loop_invariant
           (fun st' => st_day_shortages st'
                       = List.map (fun d => shortage_entry (day_number d))
                           (List.filter is_short_day (st_day_plans st')))).
  intros st' d Hinv.
  destruct (day_step_cases st' d) as [(_ & ->) | (_ & b & m & dm & _ & ->)];
    cbn [st_day_plans st_day_shortages];
    rewrite List.filter_app, List.map_app, <- Hinv; simpl.
  - reflexivity.
  - rewrite app_nil_r. reflexivity.
Qed.

(** X18.  The shortage report of a returned plan lists exactly the shortage
    days of the plan, in order, each with the one shortage text; it is
    absent when no day was short and is a single report of type
    [meal_plan_shortage] otherwise. *)
Theorem month_plan_shortages (month : Z) (data : Workbooks) (plan : MonthPlan) :
  generate_monthly_plan month data = Return plan ->
  all_shortages plan
  = match List.filter is_short_day (final_daily_plan plan) with
    | [] => []
    | short_days =>
        [mkShortageReport "meal_plan_shortage"
           (List.map (fun d => shortage_entry (day_number d)) short_days)]
    end.
Proof.
  intros Hplan.
  apply generate_monthly_plan_returns in Hplan
    as (ref_map & box_original & box_list & main_list & _ & _ & _
        & _ & _ & _ & Hdays & Hshort).
  rewrite Hshort, Hdays.
  rewrite (days_loop_shortages day_range (mkMonthState box_list main_list [] [])
             eq_refl).
  destruct (List.filter is_short_day _); reflexivity.
Qed.

Lemma load_food_reference_ok (file : Read ReferenceRow) :
  (exists ref_map, load_food_reference file = Return ref_map)
  <-> sheet_ok ["item_name"; "item_category"; "servings_per_unit"] file.
Proof.
  unfold load_food_reference, sheet_ok. split.
  - intros [ref_map H]. destruct file as [df| |]; try discriminate.
    exists df. split; [reflexivity|]. apply missing_column_None.
    destruct (missing_column _ (columns df)); [discriminate | reflexivity].
  - intros (df & -> & Hcols). apply missing_column_None in Hcols.
    rewrite Hcols. eauto.
Qed.

Lemma load_senior_box_ok (cyc : Z) (ref_map : gmap string ReferenceEntry)
    (file : string -> Read InventoryRow) :
  (exists r, load_senior_box_data_and_list cyc ref_map file = Return r)
  <-> sheet_ok ["item_name"; "quantity"] (file (sheet_name_of cyc)).
Proof.
  unfold load_senior_box_data_and_list, sheet_ok. split.
  - intros [r H]. destruct (file (sheet_name_of cyc)) as [df| |]; try discriminate.
    exists df. split; [reflexivity|].
    destruct (bool_decide_reflect ("item_name" ∈ columns df)); [|discriminate].
    destruct (bool_decide_reflect ("quantity" ∈ columns df)); [|discriminate].
    repeat constructor; assumption.
  - intros (df & -> & Hcols).
    inversion Hcols as [|? ? H1 Hrest]; subst.
    inversion Hrest as [|? ? H2 _]; subst.
    rewrite !bool_decide_eq_true_2 by assumption. simpl. eauto.
Qed.

Lemma load_main_inventory_ok (ref_map : gmap string ReferenceEntry)
    (file : Read InventoryRow) :
  (exists r, load_main_inventory_items ref_map file = Return r)
  <-> sheet_ok ["item_name"; "quantity_in_stock"] file.
Proof.
  unfold load_main_inventory_items, sheet_ok. split.
  - intros [r H]. destruct file as [df| |]; try discriminate.
    exists df. split; [reflexivity|]. apply missing_column_None.
    destruct (missing_column _ (columns df)); [discriminate | reflexivity].
  - intros (df & -> & Hcols). apply missing_column_None in Hcols.
    rewrite Hcols. eauto.
Qed.

(** X19.  A run returns a plan exactly when the reference sheet, the box
    sheet of the cycle month and the inventory sheet are read and have their
    columns; nothing else makes it raise.  In particular no month number is
    refused: month 0, month 13 or a negative month select a box sheet like
    any other. *)
Theorem generate_monthly_plan_returns_iff (month : Z) (data : Workbooks) :
  (exists plan, generate_monthly_plan month data = Return plan)
  <-> sheet_ok ["item_name"; "item_category"; "servings_per_unit"]
        (food_category_xlsx data)
      /\ sheet_ok ["item_name"; "quantity"]
           (senior_box_xlsx data (sheet_name_of (get_cycle_month month)))
      /\ sheet_ok ["item_name"; "quantity_in_stock"] (excel_file_xlsx data).
Proof.
  split.
  - intros [plan Hplan].
    apply generate_monthly_plan_returns in Hplan
      as (ref_map & box_original & box_list & main_list & E1 & E2 & E3 & _).
    split; [|split].
    + apply load_food_reference_ok. eauto.
    + eapply load_senior_box_ok. eauto.
    + eapply load_main_inventory_ok. eauto.
  - intros (H1 & H2 & H3).
    apply load_food_reference_ok in H1 as [ref_map E1].
    apply (load_senior_box_ok (get_cycle_month month) ref_map) in H2
      as [[box_original box_list] E2].
    apply (load_main_inventory_ok ref_map) in H3 as [main_list E3].
    unfold generate_monthly_plan. rewrite E1, E2, E3. eexists. reflexivity.
Qed.

Lemma get_cycle_month_period (month : Z) :
  get_cycle_month (month + 3) = get_cycle_month month.
Proof.
  unfold get_cycle_month.
  replace (month + 3 - 1)%Z with (month - 1 + 1 * 3)%Z by lia.
  rewrite Z_mod_plus_full. reflexivity.
Qed.

(** X20.  The plan repeats every three months: the run for [month + 3] reads
    the same sheets and gives the same plan as the run for [month], but for
    the month number it echoes, and raises the same error when that run
    raises. *)
Theorem generate_monthly_plan_period (month : Z) (data : Workbooks) :
  generate_monthly_plan (month + 3) data
  = match generate_monthly_plan month data with
    | Return plan =>
        Return (mkMonthPlan (month + 3) (cycle_month plan)
                  (senior_box_items_for_month plan) (final_daily_plan plan)
                  (all_shortages plan))
    | Raise msg => Raise msg
    end.
Proof.
  destruct (generate_monthly_plan month data) as [plan|msg] eqn:E.
  - apply generate_monthly_plan_returns in E
      as (ref_map & bo & bl & ml & E1 & E2 & E3 & F1 & F2 & F3 & F4 & F5).
    unfold generate_monthly_plan. rewrite get_cycle_month_period, E1, E2, E3.
    rewrite F2, F3, F4, F5. reflexivity.
  - revert E. unfold generate_monthly_plan. rewrite get_cycle_month_period.
    destruct (load_food_reference (food_category_xlsx data)) as [ref_map|];
      [|intros [= ->]; reflexivity].
    destruct (load_senior_box_data_and_list (get_cycle_month month) ref_map
                (senior_box_xlsx data)) as [[box_original box_list]|];
      [|intros [= ->]; reflexivity].
    destruct (load_main_inventory_items ref_map (excel_file_xlsx data))
      as [main_list|]; [discriminate | intros [= ->]; reflexivity].
Qed.

(** X21.  The box sheet a month reads depends on the month modulo 3 only:
    the first sheet for months 1, 4, 7, 10, the second for 2, 5, 8, 11 and
    the third for 3, 6, 9, 12 (and likewise for any other integer). *)
Theorem sheet_of_month (month : Z) :
  sheet_name_of (get_cycle_month month)
  = if (month mod 3 =? 1)%Z then "Senior Box First Month"
    else if (month mod 3 =? 2)%Z then "Senior Box Second Month"
    else "Senior Box Third Month".
Proof.
  unfold sheet_name_of, get_cycle_month.
  pose proof (Z.mod_pos_bound month 3 ltac:(lia)) as Hb.
  pose proof (Z.mod_pos_bound (month - 1) 3 ltac:(lia)) as Hb'.
  pose proof (Z.div_mod month 3 ltac:(lia)) as Hm.
  pose proof (Z.div_mod (month - 1) 3 ltac:(lia)) as Hm'.
  destruct (Z.eqb_spec (month mod 3) 1) as [H1|H1];
    [|destruct (Z.eqb_spec (month mod 3) 2) as [H2|H2]];
    destruct (Z.eqb_spec ((month - 1) mod 3 + 1) 1) as [G1|G1];
    try destruct (Z.eqb_spec ((month - 1) mod 3 + 1) 2) as [G2|G2];
    try reflexivity; exfalso; lia.
Qed.

(** * Properties of the reference map and the inventory builders *)

Lemma lower_ascii_idem (c : ascii) : lower_ascii (lower_ascii c) = lower_ascii c.
Proof. destruct c as [[] [] [] [] [] [] [] []]; reflexivity. Qed.

Lemma is_space_lower_ascii (c : ascii) : is_space (lower_ascii c) = is_space c.
Proof. destruct c as [[] [] [] [] [] [] [] []]; reflexivity. Qed.

Lemma lower_idem (s : string) : lower (lower s) = lower s.
Proof.
  induction s as [|c r IH]; simpl; [reflexivity|].
  rewrite lower_ascii_idem, IH. reflexivity.
Qed.

Lemma lstrip_lower (s : string) : lstrip (lower s) = lower (lstrip s).
Proof.
  induction s as [|c r IH]; simpl; [reflexivity|].
  rewrite is_space_lower_ascii. destruct (is_space c); [exact IH | reflexivity].
Qed.

Lemma rstrip_lower (s : string) : rstrip (lower s) = lower (rstrip s).
Proof.
  induction s as [|c r IH]; simpl; [reflexivity|].
  rewrite IH, is_space_lower_ascii.
  destruct (rstrip r); simpl; [destruct (is_space c)|]; reflexivity.
Qed.

Lemma strip_lower (s : string) : strip (lower s) = lower (strip s).
Proof. unfold strip. rewrite lstrip_lower, rstrip_lower. reflexivity. Qed.

Lemma rstrip_idem (s : string) : rstrip (rstrip s) = rstrip s.
Proof.
  induction s as [|c r IH]; simpl; [reflexivity|].
  destruct (rstrip r) as [|a r'] eqn:E.
  - destruct (is_space c) eqn:Hc; simpl; [reflexivity|]. rewrite Hc. reflexivity.
  - simpl in *. rewrite IH. reflexivity.
Qed.

Lemma lstrip_rstrip_lstrip (s : string) :
  lstrip (rstrip (lstrip s)) = rstrip (lstrip s).
Proof.
  induction s as [|c r IH]; simpl; [reflexivity|].
  destruct (is_space c) eqn:Hc; [exact IH|].
  simpl. destruct (rstrip r); simpl; rewrite Hc; simpl; rewrite ?Hc; reflexivity.
Qed.

Lemma strip_idem (s : string) : strip (strip s) = strip s.
Proof.
  unfold strip. rewrite lstrip_rstrip_lstrip. apply rstrip_idem.
Qed.

(** Trimming and lowercasing a name that was trimmed and lowercased changes
    nothing. *)
Lemma normalize_idem (s : string) :
  lower (strip (lower (strip s))) = lower (strip s).
Proof. rewrite strip_lower, strip_idem. apply lower_idem. Qed.

(** X22.  Every key of the reference map and every raw category in it is in
    trimmed lowercase form, so a name written like a key of the map finds
    that key. *)
Theorem load_food_reference_normal_keys (file : Read ReferenceRow)
    (ref_map : gmap string ReferenceEntry) (name : string)
    (entry : ReferenceEntry) :
  load_food_reference file = Return ref_map ->
  ref_map !! name = Some entry ->
  lower (strip name) = name
  /\ lower (strip (raw_category entry)) = raw_category entry
  /\ ref_map !! lower (strip name) = Some entry.
Proof.
  unfold load_food_reference. destruct file as [df| |]; try discriminate.
  destruct (missing_column ["item_name"; "item_category"; "servings_per_unit"]
              (columns df)); [discriminate|].
  intros [= <-] Hl.
  assert (Hname : lower (strip name) = name).
  { apply build_ref_map_lookup in Hl as (before & row & after & _ & <- & _).
    apply normalize_idem. }
  split; [exact Hname|]. split; [|rewrite Hname; exact Hl].
  apply build_ref_map_lookup in Hl as (before & row & after & _ & _ & _ & ->).
  apply normalize_idem.
Qed.

Lemma load_food_reference_normal_keys_witness :
  let file := Loaded (mkFrame ["item_name"; "item_category"; "servings_per_unit"]
                        [mkReferenceRow "  Brown RICE " " Grains" (Numeric 2)]) in
  exists ref_map,
    load_food_reference file = Return ref_map
    /\ ref_map !! "brown rice" = Some (mkReferenceEntry "grains" 2)
    /\ lower (strip "brown rice") = "brown rice".
Proof.
  intros file. eexists. split; [reflexivity|]. split; [reflexivity|].
  exact (proj1 (load_food_reference_normal_keys file _ "brown rice"
                  (mkReferenceEntry "grains" 2) eq_refl eq_refl)).
Defined.

(** X23.  An inventory row finds the reference row of its item whatever the
    casing and the surrounding blanks of the two names: when the last
    reference row with that trimmed lowercase name has a category that
    [CATEGORY_MAP] knows, the row gives an item with the name as the row
    writes it, that category, and the quantity times the servings per unit
    (a quantity that is not a number counting as 0, servings per unit that
    are not a number as 1). *)
Theorem inventory_item_found (before after : list ReferenceRow)
    (ref : ReferenceRow) (row : InventoryRow) (cat : Category) :
  lower (strip (row_item_name row)) = lower (strip (ref_item_name ref)) ->
  Forall (fun r => lower (strip (ref_item_name r))
                   <> lower (strip (ref_item_name ref))) after ->
  CATEGORY_MAP !! lower (strip (ref_item_category ref)) = Some cat ->
  inventory_item_of (build_ref_map (before ++ ref :: after)) row
  = Some (mkItem (row_item_name row) cat
            (to_numeric_fillna 0 (row_quantity row)
             * to_numeric_fillna 1 (ref_servings_per_unit ref))).
Proof.
  intros Hname Hafter Hcat. unfold inventory_item_of. rewrite Hname.
  assert (Hl : build_ref_map (before ++ ref :: after)
                 !! lower (strip (ref_item_name ref))
               = Some (reference_entry ref)).
  { apply build_ref_map_lookup. exists before, ref, after. auto. }
  rewrite Hl. simpl. rewrite Hcat. reflexivity.
Qed.

Lemma inventory_item_found_witness :
  inventory_item_of
    (build_ref_map [mkReferenceRow "Apple " "Seasonal & Local Fruits/Vegetables"
                      (Numeric 2)])
    (mkInventoryRow " APPLE" (Numeric 5))
  = Some (mkItem " APPLE" fruit_veg (5 * 2)).
Proof.
  apply (inventory_item_found []
           [] (mkReferenceRow "Apple " "Seasonal & Local Fruits/Vegetables"
                 (Numeric 2))
           (mkInventoryRow " APPLE" (Numeric 5)) fruit_veg).
  - reflexivity.
  - constructor.
  - reflexivity.
Defined.

(** X24.  The item list of a builder follows the sheet: the items are in the
    order of their rows, the list of two stretches of rows is the two lists
    one after the other, and every item comes from a row of the sheet, with
    the name of that row, the category [CATEGORY_MAP] gives to the raw
    category of its reference entry, and the quantity times the servings per
    unit. *)
Theorem inventory_loop_rows (ref_map : gmap string ReferenceEntry)
    (rows1 rows2 : list InventoryRow) :
  inventory_loop ref_map (rows1 ++ rows2) []
  = inventory_loop ref_map rows1 [] ++ inventory_loop ref_map rows2 []
  /\ sublist (List.map item_name (inventory_loop ref_map rows1 []))
       (List.map row_item_name rows1)
  /\ Forall (fun item =>
       exists row entry,
         In row rows1
         /\ ref_map !! lower (strip (row_item_name row)) = Some entry
         /\ CATEGORY_MAP !! raw_category entry = Some (category item)
         /\ item_name item = row_item_name row
         /\ servings_available item
            = to_numeric_fillna 0 (row_quantity row) * servings_per_unit entry)
       (inventory_loop ref_map rows1 []).
Proof.
  rewrite !inventory_loop_omap. simpl. split; [apply omap_app|]. split.
  - induction rows1 as [|row rest IH]; simpl; [constructor|].
    destruct (inventory_item_of ref_map row) as [item|] eqn:E.
    + simpl. destruct (inventory_item_of_name _ _ _ E) as [-> _].
      apply sublist_skip, IH.
    + apply sublist_cons, IH.
  - induction rows1 as [|row rest IH]; simpl; [constructor|].
    assert (IH' : Forall (fun item =>
       exists row0 entry,
         In row0 (row :: rest)
         /\ ref_map !! lower (strip (row_item_name row0)) = Some entry
         /\ CATEGORY_MAP !! raw_category entry = Some (category item)
         /\ item_name item = row_item_name row0
         /\ servings_available item
            = to_numeric_fillna 0 (row_quantity row0) * servings_per_unit entry)
       (omap (inventory_item_of ref_map) rest)).
    { eapply Forall_impl; [exact IH|]. simpl.
      intros item (r & e & Hin & H). exists r, e. split; [right; exact Hin | exact H]. }
    destruct (inventory_item_of ref_map row) as [item|] eqn:E; [|exact IH'].
    constructor; [|exact IH'].
    unfold inventory_item_of in E.
    destruct (ref_map !! lower (strip (row_item_name row))) as [entry|] eqn:El;
      [|discriminate].
    destruct (CATEGORY_MAP !! raw_category entry) as [c|] eqn:Ec; [|discriminate].
    injection E as <-. exists row, entry. simpl. auto 10.
Qed.

(** * The sample workbooks *)

Lemma sample_plan_returned :
  generate_monthly_plan 1 sample_workbooks = Return sample_plan.
Proof. vm_compute. reflexivity. Qed.

(** The sample has its thirty days, the first served and the others short. *)
Lemma month_plan_days_witness :
  List.map day_number (final_daily_plan sample_plan) = List.map Z.of_nat (seq 1 30)
  /\ Forall (fun d => short_day d \/ full_day d) (final_daily_plan sample_plan).
Proof.
  destruct (month_plan_days 1 sample_workbooks sample_plan sample_plan_returned)
    as (H1 & H2 & _).
  split; assumption.
Defined.

Lemma served_day_amounts_witness :
  let st := mkMonthState
              [mkItem "Apple" fruit_veg 6; mkItem "Rice" cereal 5;
               mkItem "Milk" dairy 3; mkItem "Dal" protein 2;
               mkItem "Ghee" oil 4] [] [] [] in
  exists d,
    In d (st_day_plans (days_loop [1; 2]%Z st))
    /\ day_number d = 1%Z
    /\ sum_used (day_records (meals d)) == 15.
Proof.
  cbv zeta. eexists. split; [left; reflexivity|]. split; [reflexivity|].
  eapply (served_day_amounts [1; 2]%Z
            (mkMonthState
               [mkItem "Apple" fruit_veg 6; mkItem "Rice" cereal 5;
                mkItem "Milk" dairy 3; mkItem "Dal" protein 2;
                mkItem "Ghee" oil 4] [] [] [])).
  - reflexivity.
  - reflexivity.
  - left. reflexivity.
  - discriminate.
Defined.

Lemma month_plan_shortages_witness :
  List.map (fun r => List.map shortage_day_number (details r))
    (all_shortages sample_plan)
  = [List.map Z.of_nat (seq 2 29)].
Proof.
  rewrite (month_plan_shortages 1 sample_workbooks sample_plan
             sample_plan_returned).
  vm_compute. reflexivity.
Defined.
